(** * Data Compare: the reconciliation engine of [services/csvService]

    A shallow embedding of [normalizeValue], [getNormalizedRow],
    [processSource] and [runComparison] (services/csvService) and of
    [handleRun] (App.tsx), with the properties of the normaliser, of the
    row de-duplication, of the key index and of the reconciliation.

    Modelling conventions.
    - A JavaScript string is a [string]: each [ascii] stands for one code
      unit below 256.
    - A function that may complete abruptly returns in [exn]; [Throw] is a
      thrown exception, and a [try]/[catch] is a match on the result.
    - [Map] and [Set] keep insertion order, so they are association lists
      and duplicate-free lists, with the methods the code calls.
    - What the engine reads from its runtime (the clock, the built-in
      [Date] parser, the measured duration) is gathered in [Env]. *)

From Stdlib Require Import ZArith List String Ascii Bool Lia Permutation.
From Stdlib Require Import DecimalString.
Import ListNotations.

Local Open Scope string_scope.
Local Open Scope Z_scope.

(** ** Abrupt completion *)

Inductive exn (A : Type) : Type :=
| Ok (a : A)
| Throw (e : string).

Arguments Ok {A} a.
Arguments Throw {A} e.

Definition bind {A B : Type} (m : exn A) (k : A -> exn B) : exn B :=
  match m with
  | Ok a => k a
  | Throw e => Throw e
  end.

Notation "x <- m ;; k" := (bind m (fun x => k))
  (at level 61, m at next level, right associativity).

(** ** Characters and strings *)

Definition charCode (c : ascii) : Z := Z.of_N (N_of_ascii c).

Definition inRange (lo hi : ascii) (c : ascii) : bool :=
  (charCode lo <=? charCode c) && (charCode c <=? charCode hi).

(** [\d] *)
Definition isDigit (c : ascii) : bool := inRange "0" "9" c.

(** [[a-z]], [[A-Z]], [[a-zA-Z]] *)
Definition isLower (c : ascii) : bool := inRange "a" "z" c.
Definition isUpper (c : ascii) : bool := inRange "A" "Z" c.
Definition isLetter (c : ascii) : bool := isLower c || isUpper c.

(** [\w] *)
Definition isWordChar (c : ascii) : bool :=
  isLetter c || isDigit c || Ascii.eqb c "_".

(** [\s], which is also what [String.prototype.trim] strips: TAB, LF, VT,
    FF, CR, SPACE and NBSP are the white space and line terminators below
    256. *)
Definition isWhitespace (c : ascii) : bool :=
  let n := charCode c in
  ((9 <=? n) && (n <=? 13)) || (n =? 32) || (n =? 160).

Definition isDash (c : ascii) : bool := Ascii.eqb c "-".

Fixpoint existsChar (p : ascii -> bool) (s : string) : bool :=
  match s with
  | EmptyString => false
  | String c s' => p c || existsChar p s'
  end.

Fixpoint filterChars (p : ascii -> bool) (s : string) : string :=
  match s with
  | EmptyString => EmptyString
  | String c s' => if p c then String c (filterChars p s') else filterChars p s'
  end.

Fixpoint trimStart (s : string) : string :=
  match s with
  | EmptyString => EmptyString
  | String c s' => if isWhitespace c then trimStart s' else s
  end.

Fixpoint trimEnd (s : string) : string :=
  match s with
  | EmptyString => EmptyString
  | String c s' =>
      match trimEnd s' with
      | EmptyString => if isWhitespace c then EmptyString else String c EmptyString
      | t => String c t
      end
  end.

(** [s.trim()] *)
Definition trim (s : string) : string := trimEnd (trimStart s).

(** [s.replace(/\s+/g, "")] *)
Definition removeWhitespace (s : string) : string :=
  filterChars (fun c => negb (isWhitespace c)) s.

(** [s.replace(/^0+/, "")] *)
Fixpoint removeLeadingZeros (s : string) : string :=
  match s with
  | String c s' => if Ascii.eqb c "0" then removeLeadingZeros s' else s
  | EmptyString => EmptyString
  end.

(** [s.toLowerCase()] on the letters A-Z; it is only called on strings of
    digits, letters and dashes. *)
Definition lowerChar (c : ascii) : ascii :=
  if isUpper c then ascii_of_N (N_of_ascii c + 32) else c.

Definition upperChar (c : ascii) : ascii :=
  if isLower c then ascii_of_N (N_of_ascii c - 32) else c.

Fixpoint toLowerCase (s : string) : string :=
  match s with
  | EmptyString => EmptyString
  | String c s' => String (lowerChar c) (toLowerCase s')
  end.

(** [s.replace(/\b[a-z]/g, (char) => char.toUpperCase())]: a lower-case
    letter is at a word boundary when no word character precedes it. *)
Fixpoint upperAtBoundary (afterWord : bool) (s : string) : string :=
  match s with
  | EmptyString => EmptyString
  | String c s' =>
      String (if negb afterWord && isLower c then upperChar c else c)
             (upperAtBoundary (isWordChar c) s')
  end.

Definition toTitleCase (s : string) : string :=
  upperAtBoundary false (toLowerCase s).

(** [haystack.includes(needle)] on an array of strings *)
Definition includes (l : list string) (x : string) : bool :=
  existsb (String.eqb x) l.

(** [parts.join(sep)] *)
Fixpoint join (sep : string) (parts : list string) : string :=
  match parts with
  | [] => ""
  | [p] => p
  | p :: rest => p ++ sep ++ join sep rest
  end.

(** Decimal rendering of a number that holds an integer. *)
Definition numberToString (n : Z) : string :=
  NilZero.string_of_int (Z.to_int n).

(** ** Anchored regular expressions

    The patterns of the code are sequences of bounded repetitions of a
    character class, anchored at both ends. *)

Inductive atom : Type :=
| Rep (cls : ascii -> bool) (lo hi : nat).

Fixpoint matchRep (cls : ascii -> bool) (lo hi : nat)
                  (k : string -> bool) (s : string) : bool :=
  (match lo with O => k s | S _ => false end)
  || match hi, s with
     | S hi', String c s' => cls c && matchRep cls (Nat.pred lo) hi' k s'
     | _, _ => false
     end.

Fixpoint matchAtoms (p : list atom) (s : string) : bool :=
  match p with
  | [] => match s with EmptyString => true | _ => false end
  | Rep cls lo hi :: p' => matchRep cls lo hi (matchAtoms p') s
  end.

(** [/^\d{1,2}-[a-zA-Z]{3}-\d{2,4}$/] *)
Definition reDayMonYear : list atom :=
  [Rep isDigit 1 2; Rep isDash 1 1; Rep isLetter 3 3; Rep isDash 1 1;
   Rep isDigit 2 4]%nat.

(** [/^\d{4}-\d{2}-\d{2}$/] *)
Definition reIsoDate : list atom :=
  [Rep isDigit 4 4; Rep isDash 1 1; Rep isDigit 2 2; Rep isDash 1 1;
   Rep isDigit 2 2]%nat.

(** ** Dates

    A [Date] is either Invalid Date or a point in time, of which the code
    only observes the local calendar fields. [month] counts from 0, as
    [getMonth] does. *)

Record ymd : Type := mkYmd { year : Z; month : Z; day : Z }.

Inductive jsdate : Type :=
| InvalidDate
| ValidDate (d : ymd).

(** What a run reads from its runtime. *)
Record Env : Type := mkEnv {
  today : ymd;                   (* new Date(), in local time *)
  nativeDate : string -> jsdate; (* new Date(valStr) *)
  nowISO : string;               (* new Date().toISOString() *)
  elapsed : string               (* ((endTime - startTime) / 1000).toFixed(2) *)
}.

(** The functions of date-fns 4.1.0 that [normalizeValue] imports. The
    library is a dependency, not part of the repository: this module
    follows its documented behaviour for the format tokens that occur in
    [dateFormats] ([y], [M], [d], [H], [m], [s], literals and quoted
    text); any other letter raises, as date-fns does for a letter that is
    not a format token. Ordinal forms such as [do] and the long formats
    [P] and [p] are not modelled. *)
Module DateFns.

Definition isValid (d : jsdate) : bool :=
  match d with ValidDate _ => true | InvalidDate => false end.

(** *** Format strings *)

Inductive token : Type :=
| Pattern (c : ascii) (n : nat)
| Literal (s : string).

Inductive lexState : Type :=
| Idle
| InRun (c : ascii) (n : nat)
| InQuote (acc : string)
| QuoteSeen (acc : string).

Fixpoint repeatChar (c : ascii) (n : nat) : string :=
  match n with O => "" | S n' => String c (repeatChar c n') end.

Definition runToken (c : ascii) (n : nat) : token :=
  if isLetter c then Pattern c n else Literal (repeatChar c n).

Definition isQuote (c : ascii) : bool := Ascii.eqb c "'".

Definition start (c : ascii) : list token * lexState :=
  if isQuote c then ([], InQuote "")
  else if isWordChar c then ([], InRun c 1)
  else ([Literal (String c "")], Idle).

Definition flush (st : lexState) : list token :=
  match st with
  | Idle => []
  | InRun c n => [runToken c n]
  | InQuote acc | QuoteSeen acc => [Literal acc]
  end.

(** The split made by [formattingTokensRegExp]: runs of one letter, quoted
    text with [''] for a quote, and single characters. *)
Fixpoint lex (st : lexState) (s : string) : list token :=
  match s with
  | EmptyString => flush st
  | String c s' =>
      match st with
      | Idle => let (out, st') := start c in out ++ lex st' s'
      | InRun r n =>
          if Ascii.eqb c r then lex (InRun r (S n)) s'
          else runToken r n :: (let (out, st') := start c in out ++ lex st' s')
      | InQuote acc =>
          if isQuote c then
            match acc with
            | EmptyString => Literal "'" :: lex Idle s'
            | _ => lex (QuoteSeen acc) s'
            end
          else lex (InQuote (acc ++ String c "")) s'
      | QuoteSeen acc =>
          if isQuote c then lex (InQuote (acc ++ "'")) s'
          else Literal acc :: (let (out, st') := start c in out ++ lex st' s')
      end
  end.

Definition tokenize (fmt : string) : list token := lex Idle fmt.

(** *** Reading numbers and month names *)

Definition digitValue (c : ascii) : Z := charCode c - 48.

(** [parseInt(digits, 10)] *)
Fixpoint parseIntFrom (acc : Z) (s : string) : Z :=
  match s with
  | EmptyString => acc
  | String c s' => parseIntFrom (acc * 10 + digitValue c) s'
  end.

Fixpoint takeDigits (n : nat) (s : string) : string * string :=
  match n, s with
  | S n', String c s' =>
      if isDigit c then let (ds, rest) := takeDigits n' s' in (String c ds, rest)
      else ("", s)
  | _, _ => ("", s)
  end.

(** [parseNDigits(n, dateString)]: [/^\d{1,n}/] *)
Definition parseNDigits (n : nat) (s : string) : option (Z * string) :=
  match takeDigits n s with
  | (EmptyString, _) => None
  | (ds, rest) => Some (parseIntFrom 0 ds, rest)
  end.

(** A pattern [/^(XY|A?\d)/]: two characters when [two] accepts them, else
    one digit. *)
Definition parseTwoOrOne (two : ascii -> ascii -> bool) (s : string)
  : option (Z * string) :=
  match s with
  | String a (String b r) =>
      if two a b then Some (digitValue a * 10 + digitValue b, r)
      else if isDigit a then Some (digitValue a, String b r)
      else None
  | String a r => if isDigit a then Some (digitValue a, r) else None
  | EmptyString => None
  end.

(** [numericPatterns.date]: [/^(3[0-1]|[0-2]?\d)/] *)
Definition parseDateOfMonth : string -> option (Z * string) :=
  parseTwoOrOne (fun a b =>
    (Ascii.eqb a "3" && inRange "0" "1" b) || (inRange "0" "2" a && isDigit b)).

(** [numericPatterns.month]: [/^(1[0-2]|0?\d)/] *)
Definition parseMonthNumber : string -> option (Z * string) :=
  parseTwoOrOne (fun a b =>
    (Ascii.eqb a "1" && inRange "0" "2" b) || (Ascii.eqb a "0" && isDigit b)).

Fixpoint indexOf (x : string) (l : list string) (i : Z) : option Z :=
  match l with
  | [] => None
  | y :: l' => if String.eqb x y then Some i else indexOf x l' (i + 1)
  end.

Definition monthAbbreviations : list string :=
  ["jan"; "feb"; "mar"; "apr"; "may"; "jun";
   "jul"; "aug"; "sep"; "oct"; "nov"; "dec"].

(** The narrow parse patterns, January to December; the first one that
    accepts the letter wins. *)
Definition monthNarrow : list string :=
  ["j"; "f"; "m"; "a"; "m"; "j"; "j"; "a"; "s"; "o"; "n"; "d"].

(** [match.month] of the en-US locale, abbreviated width, then narrow
    width; both ignore case. *)
Definition parseMonthName (s : string) : option (Z * string) :=
  match indexOf (toLowerCase (substring 0 3 s)) monthAbbreviations 0 with
  | Some i => Some (i, substring 3 (length s - 3) s)
  | None =>
      match s with
      | String c r =>
          if isLetter c then
            match indexOf (String (lowerChar c) "") monthNarrow 0 with
            | Some i => Some (i, r)
            | None => None
            end
          else None
      | EmptyString => None
      end
  end.

(** *** Parsing *)

(** The values read from the date string, by unit. *)
Record fields : Type := mkFields {
  fYear : option (Z * bool);   (* the number and [isTwoDigitYear] *)
  fMonth : option Z;           (* counted from 0 *)
  fDay : option Z;
  fHour : option Z;
  fMinute : option Z;
  fSecond : option Z
}.

Definition noFields : fields := mkFields None None None None None None.

Definition mapValue (f : Z -> Z) (r : option (Z * string)) : option (Z * string) :=
  match r with
  | Some (v, rest) => Some (f v, rest)
  | None => None
  end.

Definition reader : Type := string -> option (Z * string).
Definition setter : Type := Z -> fields -> fields.

Definition setYear (twoDigit : bool) : setter := fun v f =>
  mkFields (Some (v, twoDigit)) (fMonth f) (fDay f) (fHour f) (fMinute f) (fSecond f).
Definition setMonth : setter := fun v f =>
  mkFields (fYear f) (Some v) (fDay f) (fHour f) (fMinute f) (fSecond f).
Definition setDay : setter := fun v f =>
  mkFields (fYear f) (fMonth f) (Some v) (fHour f) (fMinute f) (fSecond f).
Definition setHour : setter := fun v f =>
  mkFields (fYear f) (fMonth f) (fDay f) (Some v) (fMinute f) (fSecond f).
Definition setMinute : setter := fun v f =>
  mkFields (fYear f) (fMonth f) (fDay f) (fHour f) (Some v) (fSecond f).
Definition setSecond : setter := fun v f =>
  mkFields (fYear f) (fMonth f) (fDay f) (fHour f) (fMinute f) (Some v).

(** The parser of a token: how it reads the string and where the value
    goes. [None] when the model has no parser for the token.
    - [yy] reads [/^\d{1,2}/] as a two-digit year, [y] reads
      [/^\d{1,4}/], a longer run of [y] reads as many digits as its length;
    - [M] reads [numericPatterns.month], [MM] reads [/^\d{1,2}/], both
      less one; [MMM] reads a month name;
    - [d] reads [numericPatterns.date], a longer run [/^\d{1,n}/];
    - [HH], [mm], [ss] (and longer runs) read [/^\d{1,n}/]. *)
Definition parserOf (c : ascii) (n : nat) : option (reader * setter) :=
  if Ascii.eqb c "y" then
    Some (parseNDigits (match n with 1 => 4 | _ => n end)%nat,
          setYear (Nat.eqb n 2))
  else if Ascii.eqb c "M" then
    match n with
    | 1%nat => Some (fun s => mapValue (fun v => v - 1) (parseMonthNumber s), setMonth)
    | 2%nat => Some (fun s => mapValue (fun v => v - 1) (parseNDigits 2 s), setMonth)
    | 3%nat => Some (parseMonthName, setMonth)
    | _ => None
    end
  else if Ascii.eqb c "d" then
    Some (match n with 1%nat => parseDateOfMonth | _ => parseNDigits n end, setDay)
  else if Ascii.eqb c "H" then
    match n with 1%nat => None | _ => Some (parseNDigits n, setHour) end
  else if Ascii.eqb c "m" then
    match n with 1%nat => None | _ => Some (parseNDigits n, setMinute) end
  else if Ascii.eqb c "s" then
    match n with 1%nat => None | _ => Some (parseNDigits n, setSecond) end
  else None.

Fixpoint startsWith (prefix s : string) : option string :=
  match prefix, s with
  | EmptyString, _ => Some s
  | String a p', String b s' => if Ascii.eqb a b then startsWith p' s' else None
  | String _ _, EmptyString => None
  end.

(** The token loop of [parse]: [Ok None] is the early return of Invalid
    Date, [Throw] the [RangeError] for a letter used twice or for a letter
    without a parser. [used] holds the letters met so far. *)
Fixpoint scan (tokens : list token) (used : list ascii) (f : fields)
              (dateStr : string) : exn (option fields) :=
  match tokens with
  | [] =>
      if existsChar (fun c => negb (isWhitespace c)) dateStr
      then Ok None else Ok (Some f)
  | Pattern c n :: rest =>
      if existsb (Ascii.eqb c) used then
        Throw "RangeError: the format string repeats a token"
      else
        match parserOf c n with
        | None => Throw "RangeError: unsupported format token"
        | Some (read, set) =>
            match read dateStr with
            | None => Ok None
            | Some (v, dateStr') => scan rest (c :: used) (set v f) dateStr'
            end
        end
  | Literal l :: rest =>
      match startsWith l dateStr with
      | Some dateStr' => scan rest used f dateStr'
      | None => Ok None
      end
  end.

(** *** Resolving the fields against the reference date *)

Definition isLeapYearIndex (y : Z) : bool :=
  (Z.rem y 400 =? 0) || ((Z.rem y 4 =? 0) && negb (Z.rem y 100 =? 0)).

Definition DAYS_IN_MONTH : list Z :=
  [31; 28; 31; 30; 31; 30; 31; 31; 30; 31; 30; 31].
Definition DAYS_IN_MONTH_LEAP_YEAR : list Z :=
  [31; 29; 31; 30; 31; 30; 31; 31; 30; 31; 30; 31].

Definition daysInMonth (y m : Z) : Z :=
  nth (Z.to_nat m)
      (if isLeapYearIndex y then DAYS_IN_MONTH_LEAP_YEAR else DAYS_IN_MONTH) 0.

(** A two-digit year is placed in the century that brings it within fifty
    years of the reference year. *)
Definition normalizeTwoDigitYear (twoDigitYear currentYear : Z) : Z :=
  let isCommonEra := currentYear >? 0 in
  let absCurrentYear := if isCommonEra then currentYear else 1 - currentYear in
  let result :=
    if absCurrentYear <=? 50 then
      (if twoDigitYear =? 0 then 100 else twoDigitYear)
    else
      let rangeEnd := absCurrentYear + 50 in
      let rangeEndCentury := Z.quot rangeEnd 100 * 100 in
      let isPreviousCentury := Z.rem rangeEnd 100 <=? twoDigitYear in
      twoDigitYear + rangeEndCentury - (if isPreviousCentury then 100 else 0) in
  if isCommonEra then result else 1 - result.

Definition inside (lo hi v : Z) : bool := (lo <=? v) && (v <=? hi).

(** One setter: nothing to do when the unit was not read, Invalid Date when
    its [validate] fails, else [set]. *)
Definition step {A : Type} (v : option A) (validate : A -> ymd -> bool)
                (set : A -> ymd -> ymd) (d : jsdate) : jsdate :=
  match d, v with
  | InvalidDate, _ => InvalidDate
  | ValidDate d0, None => ValidDate d0
  | ValidDate d0, Some a => if validate a d0 then ValidDate (set a d0) else InvalidDate
  end.

(** The setters run by decreasing priority: year, month, day of the month,
    hours, minutes, seconds. Setting the year moves to 1 January, setting
    the month to its first day; the time of day does not show in [ymd]. *)
Definition resolve (referenceDate : ymd) (f : fields) : jsdate :=
  let d := ValidDate referenceDate in
  let d := step (fYear f)
             (fun '(y, twoDigit) _ => twoDigit || (y >? 0))
             (fun '(y, twoDigit) d0 =>
                mkYmd (if twoDigit then normalizeTwoDigitYear y (year d0) else y) 0 1)
             d in
  let d := step (fMonth f)
             (fun m _ => inside 0 11 m)
             (fun m d0 => mkYmd (year d0) m 1) d in
  let d := step (fDay f)
             (fun v d0 => inside 1 (daysInMonth (year d0) (month d0)) v)
             (fun v d0 => mkYmd (year d0) (month d0) v) d in
  let d := step (fHour f) (fun v _ => inside 0 23 v) (fun _ d0 => d0) d in
  let d := step (fMinute f) (fun v _ => inside 0 59 v) (fun _ d0 => d0) d in
  step (fSecond f) (fun v _ => inside 0 59 v) (fun _ d0 => d0) d.

(** [parse(dateStr, formatStr, referenceDate)] *)
Definition parse (dateStr formatStr : string) (referenceDate : ymd) : exn jsdate :=
  match formatStr with
  | EmptyString =>
      Ok (match dateStr with
          | EmptyString => ValidDate referenceDate
          | _ => InvalidDate
          end)
  | _ =>
      r <- scan (tokenize formatStr) [] noFields dateStr ;;
      Ok (match r with
          | Some f => resolve referenceDate f
          | None => InvalidDate
          end)
  end.

(** *** Formatting *)

(** [addLeadingZeros(number, targetLength)] for a number that is not
    negative *)
Definition addLeadingZeros (number : Z) (targetLength : nat) : string :=
  let output := numberToString number in
  repeatChar "0" (targetLength - length output) ++ output.

Definition formatToken (d : ymd) (c : ascii) (n : nat) : exn string :=
  if Ascii.eqb c "y" then
    let signedYear := year d in
    let y := if signedYear >? 0 then signedYear else 1 - signedYear in
    Ok (addLeadingZeros (if Nat.eqb n 2 then Z.rem y 100 else y) n)
  else if Ascii.eqb c "M" then
    match n with
    | 1%nat => Ok (numberToString (month d + 1))
    | 2%nat => Ok (addLeadingZeros (month d + 1) 2)
    | _ => Throw "RangeError: unsupported format token"
    end
  else if Ascii.eqb c "d" then Ok (addLeadingZeros (day d) n)
  else Throw "RangeError: unsupported format token".

Fixpoint formatTokens (d : ymd) (tokens : list token) : exn string :=
  match tokens with
  | [] => Ok ""
  | Pattern c n :: rest =>
      s <- formatToken d c n ;;
      t <- formatTokens d rest ;;
      Ok (s ++ t)
  | Literal l :: rest =>
      t <- formatTokens d rest ;;
      Ok (l ++ t)
  end.

(** [format(date, formatStr)]; an Invalid Date raises. *)
Definition format (date : jsdate) (formatStr : string) : exn string :=
  match date with
  | InvalidDate => Throw "RangeError: Invalid time value"
  | ValidDate d => formatTokens d (tokenize formatStr)
  end.

End DateFns.

(** ** Values, rows and configuration (types.ts) *)

(** The primitive values a cell can hold. The CSV decoder yields strings,
    and [undefined] for a field the line does not have; numbers stand for
    integers. *)
Inductive jsval : Type :=
| JUndefined
| JNull
| JBool (b : bool)
| JNum (n : Z)
| JStr (s : string).

Definition toBoolean (v : jsval) : bool :=
  match v with
  | JUndefined | JNull => false
  | JBool b => b
  | JNum n => negb (n =? 0)
  | JStr s => negb (String.eqb s "")
  end.

(** [String(v)] *)
Definition toString (v : jsval) : string :=
  match v with
  | JUndefined => "undefined"
  | JNull => "null"
  | JBool true => "true"
  | JBool false => "false"
  | JNum n => numberToString n
  | JStr s => s
  end.

(** [a || b] *)
Definition or_else (a b : jsval) : jsval := if toBoolean a then a else b.

Record KeyMapping : Type := mkKeyMapping {
  id : string;
  fieldA : string;
  fieldB : string
}.

Record NormalizationRules : Type := mkRules {
  trimWhitespace : bool;
  removeLeadingZerosA : bool;
  removeLeadingZerosFieldsA : list string;
  normalizeDatesA : bool;
  dateFieldsA : list string;
  removeLeadingZerosB : bool;
  removeLeadingZerosFieldsB : list string;
  normalizeDatesB : bool;
  dateFieldsB : list string
}.

Record ComparisonConfig : Type := mkConfig {
  keyMappings : list KeyMapping;
  rules : NormalizationRules
}.

(** A row of the decoder: an object, as its own properties. *)
Definition Row : Type := list (string * jsval).

(** [row[header]] *)
Fixpoint getField (row : Row) (header : string) : jsval :=
  match row with
  | [] => JUndefined
  | (k, v) :: row' => if String.eqb k header then v else getField row' header
  end.

Record CsvFile : Type := mkCsvFile {
  name : string;
  data : list Row;
  headers : list string;
  size : Z
}.

Inductive LogLevel : Type := info | warning | error | success.

(** A log line as [addLog] receives it. *)
Record LogEntry : Type := mkLog { level : LogLevel; message : string }.

(** ** The normaliser *)

Definition dateFormats : list string :=
  [ "d/M/yyyy";
    "dd/MM/yyyy";
    "d-M-yyyy";
    "dd-MM-yyyy";
    "yyyy-MM-dd";
    "yyyy-MM-dd'T'HH:mm:ss";
    "M/d/yyyy";
    "MM/dd/yyyy";
    "d-MMM-yy";
    "dd-MMM-yy";
    "d-MMM-yyyy";
    "dd-MMM-yyyy" ].

(** The [for (const fmt of dateFormats)] loop: the first format that gives
    a valid date with a year between 1900 and 2100, or [null]. *)
Fixpoint probeFormats (env : Env) (valStr : string) (fmts : list string)
  : exn (option jsdate) :=
  match fmts with
  | [] => Ok None
  | fmt :: rest =>
      d <- DateFns.parse valStr fmt (today env) ;;
      match d with
      | ValidDate x =>
          if (year x >? 1900) && (year x <? 2100) then Ok (Some d)
          else probeFormats env valStr rest
      | InvalidDate => probeFormats env valStr rest
      end
  end.

Definition removesLeadingZeros (config : ComparisonConfig) (fieldName : string)
                               (isSourceA : bool) : bool :=
  if isSourceA then
    removeLeadingZerosA (rules config)
    && includes (removeLeadingZerosFieldsA (rules config)) fieldName
  else
    removeLeadingZerosB (rules config)
    && includes (removeLeadingZerosFieldsB (rules config)) fieldName.

Definition shouldNormalizeDate (config : ComparisonConfig) (fieldName : string)
                               (isSourceA : bool) : bool :=
  if isSourceA then
    normalizeDatesA (rules config) && includes (dateFieldsA (rules config)) fieldName
  else
    normalizeDatesB (rules config) && includes (dateFieldsB (rules config)) fieldName.

(** Steps 1 and 2 of [normalizeValue], and the coercion before them. *)
Definition cleanValue (value : jsval) (fieldName : string)
                      (config : ComparisonConfig) (isSourceA : bool) : string :=
  let valStr := trim (toString (or_else value (JStr ""))) in
  let valStr :=
    if trimWhitespace (rules config) then removeWhitespace valStr else valStr in
  if removesLeadingZeros config fieldName isSourceA
  then removeLeadingZeros valStr else valStr.

(** Step 3 of [normalizeValue], for a field whose dates are normalised. *)
Definition normalizeDate (env : Env) (valStr : string) : exn string :=
  let valStr :=
    if matchAtoms reDayMonYear valStr then toTitleCase valStr else valStr in
  let simpleDate := nativeDate env valStr in
  parsedDate <-
    (if DateFns.isValid simpleDate
        && existsChar isDash valStr
        && (10 <=? length valStr)%nat
        && matchAtoms reIsoDate valStr
     then Ok (Some simpleDate)
     else probeFormats env valStr dateFormats) ;;
  match parsedDate with
  | Some d =>
      if DateFns.isValid d then DateFns.format d "yyyy-MM-dd" else Ok valStr
  | None => Ok valStr
  end.

Definition normalizeValue (env : Env) (value : jsval) (fieldName : string)
                          (config : ComparisonConfig) (isSourceA : bool)
  : exn string :=
  let valStr := cleanValue value fieldName config isSourceA in
  if shouldNormalizeDate config fieldName isSourceA
  then normalizeDate env valStr
  else Ok valStr.

(** ** Normalised rows and their signature *)

(** An object with string values, as its own properties in creation
    order. Header names are taken to be ordinary property names: one that
    is an array index would be enumerated before the others, and one that
    Object.prototype has would be found on a row that lacks it. *)
Definition NormalizedRow : Type := list (string * string).

(** [obj[key] = value] *)
Fixpoint setProperty (obj : NormalizedRow) (key value : string) : NormalizedRow :=
  match obj with
  | [] => [(key, value)]
  | (k, v) :: obj' =>
      if String.eqb k key then (k, value) :: obj'
      else (k, v) :: setProperty obj' key value
  end.

(** [obj[key]]; [None] is [undefined]. *)
Fixpoint getProperty (obj : NormalizedRow) (key : string) : option string :=
  match obj with
  | [] => None
  | (k, v) :: obj' => if String.eqb k key then Some v else getProperty obj' key
  end.

(** The [headers.forEach] of [getNormalizedRow], from the object built so
    far. *)
Fixpoint normalizeInto (env : Env) (row : Row) (config : ComparisonConfig)
                       (isSourceA : bool) (hs : list string)
                       (normalized : NormalizedRow) : exn NormalizedRow :=
  match hs with
  | [] => Ok normalized
  | header :: rest =>
      v <- normalizeValue env (getField row header) header config isSourceA ;;
      normalizeInto env row config isSourceA rest (setProperty normalized header v)
  end.

Definition getNormalizedRow (env : Env) (row : Row) (hs : list string)
                            (config : ComparisonConfig) (isSourceA : bool)
  : exn NormalizedRow :=
  normalizeInto env row config isSourceA hs [].

Definition hexDigit (n : Z) : ascii :=
  ascii_of_N (Z.to_N (if n <? 10 then 48 + n else 87 + n)).

Definition backslash : ascii := ascii_of_N 92.
Definition doubleQuote : ascii := ascii_of_N 34.

Definition escape (c : ascii) : string := String backslash (String c "").

(** [QuoteJSONString], one code unit. *)
Definition quoteChar (c : ascii) : string :=
  let n := charCode c in
  if n =? 8 then escape "b"
  else if n =? 9 then escape "t"
  else if n =? 10 then escape "n"
  else if n =? 12 then escape "f"
  else if n =? 13 then escape "r"
  else if n =? 34 then escape doubleQuote
  else if n =? 92 then escape backslash
  else if n <? 32 then
    escape "u" ++ "00" ++ String (hexDigit (n / 16)) (String (hexDigit (n mod 16)) "")
  else String c "".

Fixpoint quoteChars (s : string) : string :=
  match s with
  | EmptyString => ""
  | String c s' => quoteChar c ++ quoteChars s'
  end.

Definition quoteJSONString (s : string) : string :=
  String doubleQuote (quoteChars s) ++ String doubleQuote "".

(** [JSON.stringify(obj)] of an object with string values *)
Definition JSON_stringify (obj : NormalizedRow) : string :=
  "{" ++ join "," (map (fun '(k, v) => quoteJSONString k ++ ":" ++ quoteJSONString v) obj)
      ++ "}".

(** ** [Map] and [Set] *)

Section JsMap.
Context {V : Type}.

Definition JsMap : Type := list (string * V).

Fixpoint Map_get (m : JsMap) (key : string) : option V :=
  match m with
  | [] => None
  | (k, v) :: m' => if String.eqb k key then Some v else Map_get m' key
  end.

Definition Map_has (m : JsMap) (key : string) : bool :=
  match Map_get m key with Some _ => true | None => false end.

(** A new key goes last, a known key keeps its place. *)
Fixpoint Map_set (m : JsMap) (key : string) (value : V) : JsMap :=
  match m with
  | [] => [(key, value)]
  | (k, v) :: m' =>
      if String.eqb k key then (k, value) :: m'
      else (k, v) :: Map_set m' key value
  end.

Definition Map_values (m : JsMap) : list V := map snd m.
End JsMap.

Arguments JsMap V : clear implicits.

Definition JsSet : Type := list string.

Definition Set_has (s : JsSet) (key : string) : bool := existsb (String.eqb key) s.

Definition Set_add (s : JsSet) (key : string) : JsSet :=
  if Set_has s key then s else (s ++ [key])%list.

(** ** [processSource] *)

Record ProcessedSource : Type := mkProcessed {
  validUniqueRows : list NormalizedRow;
  duplicatesCount : Z;
  keyToRowsMap : JsMap (list NormalizedRow);
  allKeys : JsSet
}.

Definition sourceLabel (isSourceA : bool) : string :=
  if isSourceA then "Source A" else "Source B".

Definition lengthOf {A : Type} (l : list A) : Z := Z.of_nat (List.length l).

(** The body of [file.data.forEach]: a row whose normalisation raises is
    skipped by the [catch]. *)
Definition dedupRow (env : Env) (file : CsvFile) (config : ComparisonConfig)
                    (isSourceA : bool) (uniqueRowsMap : JsMap NormalizedRow)
                    (row : Row) : JsMap NormalizedRow :=
  match getNormalizedRow env row (headers file) config isSourceA with
  | Ok normalizedRow =>
      let signature := JSON_stringify normalizedRow in
      if negb (Map_has uniqueRowsMap signature)
      then Map_set uniqueRowsMap signature normalizedRow
      else uniqueRowsMap
  | Throw _ => uniqueRowsMap
  end.

(** [keyParts.join("|")] writes nothing for [undefined]. *)
Definition keyPart (isSourceA : bool) (row : NormalizedRow) (mapping : KeyMapping)
  : option string :=
  getProperty row (if isSourceA then fieldA mapping else fieldB mapping).

Definition partText (p : option string) : string :=
  match p with Some s => s | None => "" end.

Definition keyParts (config : ComparisonConfig) (isSourceA : bool)
                    (row : NormalizedRow) : list (option string) :=
  map (keyPart isSourceA row) (keyMappings config).

Definition buildKey (config : ComparisonConfig) (isSourceA : bool)
                    (row : NormalizedRow) : string :=
  join "|" (map partText (keyParts config isSourceA row)).

(** The body of [validUniqueRows.forEach], on the map and the set. *)
Definition indexRow (config : ComparisonConfig) (isSourceA : bool)
                    (acc : JsMap (list NormalizedRow) * JsSet)
                    (row : NormalizedRow) : JsMap (list NormalizedRow) * JsSet :=
  let (keyToRows, keys) := acc in
  let key := buildKey config isSourceA row in
  let keys := Set_add keys key in
  let keyToRows :=
    if negb (Map_has keyToRows key) then Map_set keyToRows key [] else keyToRows in
  let rows := match Map_get keyToRows key with Some rs => rs | None => [] end in
  (Map_set keyToRows key (rows ++ [row])%list, keys).

(** The [Map] of signatures after [file.data.forEach]. *)
Definition dedupe (env : Env) (file : CsvFile) (config : ComparisonConfig)
                  (isSourceA : bool) : JsMap NormalizedRow :=
  fold_left (dedupRow env file config isSourceA) (data file) [].

(** The [Map] and the [Set] after [validUniqueRows.forEach]. *)
Definition buildIndex (config : ComparisonConfig) (isSourceA : bool)
                      (rows : list NormalizedRow)
  : JsMap (list NormalizedRow) * JsSet :=
  fold_left (indexRow config isSourceA) rows ([], []).

Definition processSource (env : Env) (file : CsvFile) (config : ComparisonConfig)
                         (isSourceA : bool) : list LogEntry * ProcessedSource :=
  let log1 :=
    [mkLog info ("Processing " ++ sourceLabel isSourceA ++ ": " ++ name file
                 ++ " (" ++ numberToString (lengthOf (data file)) ++ " rows)...")] in
  let uniqueRowsMap := dedupe env file config isSourceA in
  let validUniqueRows := Map_values uniqueRowsMap in
  let duplicatesCount := lengthOf (data file) - lengthOf validUniqueRows in
  let log2 :=
    if duplicatesCount >? 0 then
      [mkLog info (sourceLabel isSourceA ++ ": Removed "
                   ++ numberToString duplicatesCount ++ " duplicate rows.")]
    else [] in
  let (keyToRowsMap, allKeys) := buildIndex config isSourceA validUniqueRows in
  ((log1 ++ log2)%list, mkProcessed validUniqueRows duplicatesCount keyToRowsMap allKeys).

(** ** [runComparison] *)

Record ComparisonStats : Type := mkStats {
  totalA : Z;
  totalB : Z;
  validUniqueA : Z;
  validUniqueB : Z;
  duplicatesA : Z;
  duplicatesB : Z;
  missingInB : Z;
  missingInA : Z;
  matched : Z
}.

Record DuplicateEntry : Type := mkDuplicate {
  row : NormalizedRow;
  count : Z
}.

(** The interface of types.ts. A property that the returned object literal
    does not have reads as [undefined], which is [None] here. *)
Record ComparisonResult : Type := mkResult {
  stats : ComparisonStats;
  rowsMissingInB : list NormalizedRow;
  rowsMissingInA : list NormalizedRow;
  duplicatedRowsA : option (list DuplicateEntry);
  duplicatedRowsB : option (list DuplicateEntry);
  timestamp : string;
  sourceAName : string;
  sourceBName : string
}.

(** The keys of [mine] that [theirs] does not have, in the order of
    [mine]. *)
Definition missingKeys (mine theirs : JsSet) : list string :=
  filter (fun key => negb (Set_has theirs key)) mine.

(** [rows.push(...keyToRowsMap.get(key))] for each key. *)
Definition rowsOfKeys (keyToRows : JsMap (list NormalizedRow)) (keys : list string)
  : list NormalizedRow :=
  flat_map (fun key => match Map_get keyToRows key with
                       | Some rows => rows
                       | None => []
                       end) keys.

Definition onOff (b : bool) : string := if b then "ON" else "OFF".

(** The log lines in the order of the calls to [addLog], and the
    completion of the call: the body has no [throw] and nothing outside the
    per-row [try] can raise, so the call returns. *)
Definition runComparison (env : Env) (fileA fileB : CsvFile)
                         (config : ComparisonConfig)
  : list LogEntry * exn ComparisonResult :=
  let logStart :=
    [mkLog info "Starting reconciliation process...";
     mkLog info ("Config Active: Remove Zeros A=["
                 ++ onOff (removeLeadingZerosA (rules config)) ++ "], B=["
                 ++ onOff (removeLeadingZerosB (rules config)) ++ "]")] in
  let (logA, procA) := processSource env fileA config true in
  let (logB, procB) := processSource env fileB config false in
  let missingKeysInB := missingKeys (allKeys procA) (allKeys procB) in
  let missingKeysInA := missingKeys (allKeys procB) (allKeys procA) in
  let rowsMissingInB := rowsOfKeys (keyToRowsMap procA) missingKeysInB in
  let rowsMissingInA := rowsOfKeys (keyToRowsMap procB) missingKeysInA in
  let matchedKeysCount := lengthOf (allKeys procA) - lengthOf missingKeysInB in
  let logEnd :=
    [mkLog success ("Comparison completed in " ++ elapsed env ++ "s.");
     mkLog info ("Found " ++ numberToString (lengthOf rowsMissingInB)
                 ++ " rows in Source A missing from B.");
     mkLog info ("Found " ++ numberToString (lengthOf rowsMissingInA)
                 ++ " rows in Source B missing from A.")] in
  ((logStart ++ logA ++ logB ++ [mkLog info "Comparing keys..."] ++ logEnd)%list,
   Ok {| timestamp := nowISO env;
         rowsMissingInB := rowsMissingInB;
         rowsMissingInA := rowsMissingInA;
         duplicatedRowsA := None;
         duplicatedRowsB := None;
         sourceAName := name fileA;
         sourceBName := name fileB;
         stats := {| totalA := lengthOf (data fileA);
                     totalB := lengthOf (data fileB);
                     validUniqueA := lengthOf (validUniqueRows procA);
                     validUniqueB := lengthOf (validUniqueRows procB);
                     duplicatesA := duplicatesCount procA;
                     duplicatesB := duplicatesCount procB;
                     missingInB := lengthOf rowsMissingInB;
                     missingInA := lengthOf rowsMissingInA;
                     matched := matchedKeysCount |} |}).

(** ** [handleRun] (App.tsx) *)

(** The state of [App] that a run reads and writes. *)
Record AppState : Type := mkApp {
  stFileA : option CsvFile;
  stFileB : option CsvFile;
  stConfig : ComparisonConfig;
  stLogs : list LogEntry;
  stResult : option ComparisonResult
}.

Definition addLog (st : AppState) (lvl : LogLevel) (msg : string) : AppState :=
  mkApp (stFileA st) (stFileB st) (stConfig st)
        (stLogs st ++ [mkLog lvl msg]) (stResult st).

(** The state once the timer of [handleRun] has fired. The two guards
    return before anything else is touched. *)
Definition handleRun (env : Env) (st : AppState) : AppState :=
  match stFileA st, stFileB st with
  | Some fileA, Some fileB =>
      if (List.length (keyMappings (stConfig st)) =? 0)%nat then
        addLog st error "At least one key mapping is required."
      else
        let st := mkApp (stFileA st) (stFileB st) (stConfig st) [] None in
        let st := addLog st info "Initializing comparison engine..." in
        match runComparison env fileA fileB (stConfig st) with
        | (logs, Ok res) =>
            mkApp (stFileA st) (stFileB st) (stConfig st)
                  (stLogs st ++ logs) (Some res)
        | (logs, Throw e) =>
            addLog (mkApp (stFileA st) (stFileB st) (stConfig st)
                          (stLogs st ++ logs) (stResult st))
                   error ("Critical Failure: " ++ e)
        end
  | _, _ => addLog st error "Both source files must be loaded."
  end.

(** ** Notions used by the statements *)

(** What [processSource] returns, without its log lines. *)
Definition processed (env : Env) (file : CsvFile) (config : ComparisonConfig)
                     (isSourceA : bool) : ProcessedSource :=
  snd (processSource env file config isSourceA).

(** The signature that [processSource] computes for a row, when the
    normalisation of the row returns. *)
Definition signatureOf (env : Env) (file : CsvFile) (config : ComparisonConfig)
                       (isSourceA : bool) (r : Row) : option string :=
  match getNormalizedRow env r (headers file) config isSourceA with
  | Ok normalizedRow => Some (JSON_stringify normalizedRow)
  | Throw _ => None
  end.

(** The rows that the [catch] of [processSource] skips. *)
Definition skippedRows (env : Env) (file : CsvFile) (config : ComparisonConfig)
                       (isSourceA : bool) : list Row :=
  filter (fun r => match signatureOf env file config isSourceA r with
                   | None => true
                   | Some _ => false
                   end) (data file).

(** How many signatures of the list repeat one met before. *)
Fixpoint countRepeats (seen : list string) (sigs : list string) : Z :=
  match sigs with
  | [] => 0
  | s :: rest =>
      if Set_has seen s then 1 + countRepeats seen rest
      else countRepeats (s :: seen) rest
  end.

(** The signatures of the rows of a file, in order. *)
Definition signatures (env : Env) (file : CsvFile) (config : ComparisonConfig)
                      (isSourceA : bool) : list string :=
  flat_map (fun r => match signatureOf env file config isSourceA r with
                     | Some s => [s]
                     | None => []
                     end) (data file).

(** No white space anywhere in the string. *)
Definition noWhitespace (s : string) : Prop := existsChar isWhitespace s = false.

(** Two results that differ at most in [timestamp]. *)
Definition sameExceptTimestamp (r1 r2 : ComparisonResult) : Prop :=
  stats r1 = stats r2
  /\ rowsMissingInB r1 = rowsMissingInB r2
  /\ rowsMissingInA r1 = rowsMissingInA r2
  /\ duplicatedRowsA r1 = duplicatedRowsA r2
  /\ duplicatedRowsB r1 = duplicatedRowsB r2
  /\ sourceAName r1 = sourceAName r2
  /\ sourceBName r1 = sourceBName r2.

(** Two runtimes in the same calendar year with the same [Date] parser;
    the time of the run and its duration are free. *)
Definition sameYearAndParser (env1 env2 : Env) : Prop :=
  year (today env1) = year (today env2)
  /\ forall s, nativeDate env1 s = nativeDate env2 s.

(** A format whose letters all have a parser and are all different: the
    token loop of [parse] cannot raise on it. *)
Fixpoint supported (tokens : list DateFns.token) (used : list ascii) : bool :=
  match tokens with
  | [] => true
  | DateFns.Pattern c n :: rest =>
      negb (existsb (Ascii.eqb c) used)
      && match DateFns.parserOf c n with Some _ => true | None => false end
      && supported rest (c :: used)
  | DateFns.Literal _ :: rest => supported rest used
  end.

Definition hasYear (tokens : list DateFns.token) : bool :=
  existsb (fun t => match t with
                    | DateFns.Pattern c _ => Ascii.eqb c "y"
                    | DateFns.Literal _ => false
                    end) tokens.

Definition usableFormat (fmt : string) : bool :=
  negb (String.eqb fmt "")
  && supported (DateFns.tokenize fmt) []
  && hasYear (DateFns.tokenize fmt).

(** ** Example runtimes and inputs *)

Definition previousDay (d : ymd) : ymd :=
  if day d >? 1 then mkYmd (year d) (month d) (day d - 1)
  else if month d >? 0 then
    mkYmd (year d) (month d - 1) (DateFns.daysInMonth (year d) (month d - 1))
  else mkYmd (year d - 1) 11 31.

(** A [Date] constructor on date-only strings: ECMAScript reads
    [YYYY-MM-DD] as midnight UTC, which is the previous local day where
    local time is behind UTC. Other strings are left Invalid here;
    [normalizeValue] only keeps the native date of a string of this
    shape. *)
Definition dateOnly (behindUTC : bool) (s : string) : jsdate :=
  if matchAtoms reIsoDate s then
    let y := DateFns.parseIntFrom 0 (substring 0 4 s) in
    let m := DateFns.parseIntFrom 0 (substring 5 2 s) in
    let d := DateFns.parseIntFrom 0 (substring 8 2 s) in
    if DateFns.inside 1 12 m && DateFns.inside 1 (DateFns.daysInMonth y (m - 1)) d
    then ValidDate (let local := mkYmd y (m - 1) d in
                    if behindUTC then previousDay local else local)
    else InvalidDate
  else InvalidDate.

(** A run on 15 June of year [y]. *)
Definition runtime (y : Z) (behindUTC : bool) : Env :=
  mkEnv (mkYmd y 5 15) (dateOnly behindUTC)
        (numberToString y ++ "-06-15T12:00:00.000Z") "0.01".

Definition rulesOff : NormalizationRules :=
  mkRules false false [] false [] false [] false [].

Definition idMapping : KeyMapping := mkKeyMapping "k1" "ID" "ID".

(** Two identical rows in A, one row in B. *)
Definition twiceA : CsvFile :=
  mkCsvFile "a.csv" [[("ID", JStr "1")]; [("ID", JStr "1")]] ["ID"] 8.
Definition onceB : CsvFile :=
  mkCsvFile "b.csv" [[("ID", JStr "1")]] ["ID"] 5.

Definition configById : ComparisonConfig := mkConfig [idMapping] rulesOff.
Definition configNoKeys : ComparisonConfig := mkConfig [] rulesOff.

(** Leading zeros removed from [ID] on side A, white space kept. *)
Definition configZeros : ComparisonConfig :=
  mkConfig [idMapping] (mkRules false true ["ID"] false [] false [] false []).

(** White space stripped everywhere, no other rule. *)
Definition configStrip : ComparisonConfig :=
  mkConfig [idMapping] (mkRules true false [] false [] false [] false []).

(** Dates normalised in [D] on side A. *)
Definition configDates : ComparisonConfig :=
  mkConfig [mkKeyMapping "k1" "D" "D"]
           (mkRules true false [] true ["D"] false [] false []).

Definition bornIn76 : CsvFile :=
  mkCsvFile "people.csv" [[("D", JStr "12-JAN-76")]] ["D"] 12.
Definition emptyFile : CsvFile := mkCsvFile "empty.csv" [] ["D"] 2.

(** Two key columns, and two rows that share the bar between them
    differently. *)
Definition configTwoKeys : ComparisonConfig :=
  mkConfig [mkKeyMapping "k1" "P" "P"; mkKeyMapping "k2" "Q" "Q"] rulesOff.
Definition barLeft : NormalizedRow := [("P", "1|2"); ("Q", "3")].
Definition barRight : NormalizedRow := [("P", "1"); ("Q", "2|3")].
Definition fileBarLeft : CsvFile :=
  mkCsvFile "left.csv" [[("P", JStr "1|2"); ("Q", JStr "3")]] ["P"; "Q"] 9.
Definition fileBarRight : CsvFile :=
  mkCsvFile "right.csv" [[("P", JStr "1"); ("Q", JStr "2|3")]] ["P"; "Q"] 9.

Definition loadedNoKeys : AppState :=
  mkApp (Some twiceA) (Some onceB) configNoKeys [] None.

(** ** [ConfigPanel] (components/ConfigPanel) *)

(** [addMapping]: the id is drawn with [Math.random]; an empty selection
    leaves the configuration as it is. *)
Definition addMapping (newId selectedA selectedB : string)
                      (prev : ComparisonConfig) : ComparisonConfig :=
  if negb (String.eqb selectedA "") && negb (String.eqb selectedB "") then
    mkConfig (keyMappings prev ++ [mkKeyMapping newId selectedA selectedB])
             (rules prev)
  else prev.

(** [removeMapping] *)
Definition removeMapping (mappingId : string) (prev : ComparisonConfig)
  : ComparisonConfig :=
  mkConfig (filter (fun k => negb (String.eqb (id k) mappingId)) (keyMappings prev))
           (rules prev).

(** The keys that the panel passes to [toggleRule]. *)
Inductive RuleKey : Type :=
| trimWhitespaceKey
| removeLeadingZerosAKey
| normalizeDatesAKey
| removeLeadingZerosBKey
| normalizeDatesBKey.

(** [toggleRule] *)
Definition toggleRule (key : RuleKey) (prev : ComparisonConfig) : ComparisonConfig :=
  let r := rules prev in
  mkConfig (keyMappings prev)
    (match key with
     | trimWhitespaceKey =>
         mkRules (negb (trimWhitespace r))
                 (removeLeadingZerosA r) (removeLeadingZerosFieldsA r)
                 (normalizeDatesA r) (dateFieldsA r)
                 (removeLeadingZerosB r) (removeLeadingZerosFieldsB r)
                 (normalizeDatesB r) (dateFieldsB r)
     | removeLeadingZerosAKey =>
         mkRules (trimWhitespace r)
                 (negb (removeLeadingZerosA r)) (removeLeadingZerosFieldsA r)
                 (normalizeDatesA r) (dateFieldsA r)
                 (removeLeadingZerosB r) (removeLeadingZerosFieldsB r)
                 (normalizeDatesB r) (dateFieldsB r)
     | normalizeDatesAKey =>
         mkRules (trimWhitespace r)
                 (removeLeadingZerosA r) (removeLeadingZerosFieldsA r)
                 (negb (normalizeDatesA r)) (dateFieldsA r)
                 (removeLeadingZerosB r) (removeLeadingZerosFieldsB r)
                 (normalizeDatesB r) (dateFieldsB r)
     | removeLeadingZerosBKey =>
         mkRules (trimWhitespace r)
                 (removeLeadingZerosA r) (removeLeadingZerosFieldsA r)
                 (normalizeDatesA r) (dateFieldsA r)
                 (negb (removeLeadingZerosB r)) (removeLeadingZerosFieldsB r)
                 (normalizeDatesB r) (dateFieldsB r)
     | normalizeDatesBKey =>
         mkRules (trimWhitespace r)
                 (removeLeadingZerosA r) (removeLeadingZerosFieldsA r)
                 (normalizeDatesA r) (dateFieldsA r)
                 (removeLeadingZerosB r) (removeLeadingZerosFieldsB r)
                 (negb (normalizeDatesB r)) (dateFieldsB r)
     end).

Inductive ListKey : Type :=
| removeLeadingZerosFieldsAKey
| removeLeadingZerosFieldsBKey
| dateFieldsAKey
| dateFieldsBKey.

(** [rules[listKey]] *)
Definition getList (listKey : ListKey) (r : NormalizationRules) : list string :=
  match listKey with
  | removeLeadingZerosFieldsAKey => removeLeadingZerosFieldsA r
  | removeLeadingZerosFieldsBKey => removeLeadingZerosFieldsB r
  | dateFieldsAKey => dateFieldsA r
  | dateFieldsBKey => dateFieldsB r
  end.

(** [{ ...rules, [listKey]: l }] *)
Definition setList (listKey : ListKey) (l : list string) (r : NormalizationRules)
  : NormalizationRules :=
  match listKey with
  | removeLeadingZerosFieldsAKey =>
      mkRules (trimWhitespace r) (removeLeadingZerosA r) l
              (normalizeDatesA r) (dateFieldsA r)
              (removeLeadingZerosB r) (removeLeadingZerosFieldsB r)
              (normalizeDatesB r) (dateFieldsB r)
  | removeLeadingZerosFieldsBKey =>
      mkRules (trimWhitespace r) (removeLeadingZerosA r) (removeLeadingZerosFieldsA r)
              (normalizeDatesA r) (dateFieldsA r)
              (removeLeadingZerosB r) l
              (normalizeDatesB r) (dateFieldsB r)
  | dateFieldsAKey =>
      mkRules (trimWhitespace r) (removeLeadingZerosA r) (removeLeadingZerosFieldsA r)
              (normalizeDatesA r) l
              (removeLeadingZerosB r) (removeLeadingZerosFieldsB r)
              (normalizeDatesB r) (dateFieldsB r)
  | dateFieldsBKey =>
      mkRules (trimWhitespace r) (removeLeadingZerosA r) (removeLeadingZerosFieldsA r)
              (normalizeDatesA r) (dateFieldsA r)
              (removeLeadingZerosB r) (removeLeadingZerosFieldsB r)
              (normalizeDatesB r) l
  end.

(** [toggleFieldInList] *)
Definition toggleFieldInList (listKey : ListKey) (field : string)
                             (prev : ComparisonConfig) : ComparisonConfig :=
  let currentList := getList listKey (rules prev) in
  let present := includes currentList field in
  mkConfig (keyMappings prev)
    (setList listKey
       (if present
        then filter (fun f => negb (String.eqb f field)) currentList
        else (currentList ++ [field])%list)
       (rules prev)).

(** ** [handleReset] (App.tsx) *)

Definition handleReset (st : AppState) : AppState :=
  mkApp None None (mkConfig [] (rules (stConfig st))) [] None.

(** ** [ResultsDashboard] (components/ResultsDashboard) *)

(** [stats.matched + stats.missingInB + stats.missingInA] *)
Definition totalUnion (s : ComparisonStats) : Z :=
  matched s + missingInB s + missingInA s.

(** [array.length]; the array is [undefined] when the property is absent. *)
Definition arrayLength {A : Type} (array : option (list A)) : exn Z :=
  match array with
  | Some l => Ok (lengthOf l)
  | None => Throw "TypeError: Cannot read properties of undefined (reading 'length')"
  end.

(** The labels of the export buttons, in the order in which the render
    evaluates them: the two reports of missing rows, then a report of
    duplicates for each source whose [duplicatedRows] array is not
    empty. *)
Definition exportButtons (results : ComparisonResult) : exn (list string) :=
  let missing :=
    ["Missing in " ++ sourceBName results; "Missing in " ++ sourceAName results] in
  nA <- arrayLength (duplicatedRowsA results) ;;
  let dupA := if nA >? 0 then ["Duplicates in " ++ sourceAName results] else [] in
  nB <- arrayLength (duplicatedRowsB results) ;;
  let dupB := if nB >? 0 then ["Duplicates in " ++ sourceBName results] else [] in
  Ok (missing ++ dupA ++ dupB)%list.

Definition isSlashOrDot (c : ascii) : bool := Ascii.eqb c "/" || Ascii.eqb c ".".

(** [name.replace(/\.[^/.]+$/, "")]: the match is the leftmost dot that
    only characters other than the slash and the dot follow, at least
    one. *)
Fixpoint stripExtension (s : string) : string :=
  match s with
  | EmptyString => EmptyString
  | String c s' =>
      if Ascii.eqb c "."
         && negb (String.eqb s' "")
         && negb (existsChar isSlashOrDot s')
      then EmptyString
      else String c (stripExtension s')
  end.

(** ** [LogPanel] (components/LogPanel) *)

(** [s.split(sep)] for a separator of one character *)
Fixpoint split (sep : ascii) (s : string) : list string :=
  match s with
  | EmptyString => [EmptyString]
  | String c s' =>
      if Ascii.eqb c sep then EmptyString :: split sep s'
      else match split sep s' with
           | piece :: rest => String c piece :: rest
           | [] => [String c EmptyString]
           end
  end.

(** [log.timestamp.split('T')[1].split('.')[0]]: the second piece is
    [undefined] when the timestamp has no [T], and calling [split] on it
    raises. *)
Definition displayTime (stamp : string) : exn string :=
  match nth_error (split "T" stamp) 1 with
  | Some time => Ok (hd EmptyString (split "." time))
  | None => Throw "TypeError: Cannot read properties of undefined (reading 'split')"
  end.

(** ** Further notions used by the statements *)

(** The normalised rows of a file, in order. *)
Definition normalizedRows (env : Env) (file : CsvFile) (config : ComparisonConfig)
                          (isSourceA : bool) : list NormalizedRow :=
  flat_map (fun r => match getNormalizedRow env r (headers file) config isSourceA with
                     | Ok normalizedRow => [normalizedRow]
                     | Throw _ => []
                     end) (data file).

Definition NormalizedRow_eq_dec (a b : NormalizedRow) : {a = b} + {a <> b}.
Proof.
  apply list_eq_dec. intros [k1 v1] [k2 v2].
  destruct (string_dec k1 k2), (string_dec v1 v2); [left|right..]; congruence.
Defined.

(** The rows of a list without those equal to an earlier one. *)
Fixpoint keepFirst (seen rows : list NormalizedRow) : list NormalizedRow :=
  match rows with
  | [] => []
  | r :: rest =>
      if in_dec NormalizedRow_eq_dec r seen then keepFirst seen rest
      else r :: keepFirst (r :: seen) rest
  end.

(** The configuration seen from the other side: the rules of A and B and
    the two fields of every mapping change places. *)
Definition swapConfig (config : ComparisonConfig) : ComparisonConfig :=
  let r := rules config in
  mkConfig (map (fun k => mkKeyMapping (id k) (fieldB k) (fieldA k)) (keyMappings config))
           (mkRules (trimWhitespace r)
                    (removeLeadingZerosB r) (removeLeadingZerosFieldsB r)
                    (normalizeDatesB r) (dateFieldsB r)
                    (removeLeadingZerosA r) (removeLeadingZerosFieldsA r)
                    (normalizeDatesA r) (dateFieldsA r)).

(** Two configurations, each on one side, under which a file is processed
    alike: the same three rules apply to every field and the key is made
    of the same fields. *)
Definition sameView (config1 : ComparisonConfig) (side1 : bool)
                    (config2 : ComparisonConfig) (side2 : bool) : Prop :=
  trimWhitespace (rules config1) = trimWhitespace (rules config2)
  /\ (forall f, removesLeadingZeros config1 f side1 = removesLeadingZeros config2 f side2)
  /\ (forall f, shouldNormalizeDate config1 f side1 = shouldNormalizeDate config2 f side2)
  /\ map (fun k => if side1 then fieldA k else fieldB k) (keyMappings config1)
     = map (fun k => if side2 then fieldA k else fieldB k) (keyMappings config2).

Definition isBar (c : ascii) : bool := Ascii.eqb c "|".

(** A cell that is missing, [null], empty or made of white space. *)
Definition isBlank (value : jsval) : bool :=
  match value with
  | JUndefined | JNull => true
  | JStr s => negb (existsChar (fun c => negb (isWhitespace c)) s)
  | _ => false
  end.




(** Both files are loaded and there is a key mapping. *)
Definition readyToRun (st : AppState) : bool :=
  match stFileA st, stFileB st with
  | Some _, Some _ => negb (List.length (keyMappings (stConfig st)) =? 0)%nat
  | _, _ => false
  end.

(** [a] is a prefix of [b]. *)
Fixpoint isPrefix (a b : string) : bool :=
  match a, b with
  | EmptyString, _ => true
  | String x a', String y b' => Ascii.eqb x y && isPrefix a' b'
  | String _ _, EmptyString => false
  end.

(** The 256 code units of the strings of the model. *)
Definition allAscii : list ascii := map ascii_of_nat (seq 0 256).

(** One entry of the text that [JSON.stringify] gives for a row. *)
Definition entry (kv : string * string) : string :=
  let (k, v) := kv in quoteJSONString k ++ ":" ++ quoteJSONString v.

(** A level of the log other than [warning] and [error]. *)
Definition quietLevel (l : LogEntry) : Prop := level l = info \/ level l = success.

(** The lists of the panel that belong to source A. *)
Definition isListOfA (listKey : ListKey) : bool :=
  match listKey with
  | removeLeadingZerosFieldsAKey | dateFieldsAKey => true
  | removeLeadingZerosFieldsBKey | dateFieldsBKey => false
  end.


(** * Properties *)

(** ** The model on documented examples *)

(** The examples of the documentation of date-fns for [parse] and
    [format]. *)
Example parse_documented :
  DateFns.parse "02/11/2014" "MM/dd/yyyy" (mkYmd 2026 5 15)
  = Ok (ValidDate (mkYmd 2014 1 11))
  /\ DateFns.parse "50" "yy" (mkYmd 2018 0 1) = Ok (ValidDate (mkYmd 2050 0 1))
  /\ DateFns.parse "75" "yy" (mkYmd 2018 0 1) = Ok (ValidDate (mkYmd 1975 0 1))
  /\ DateFns.format (ValidDate (mkYmd 2014 1 11)) "MM/dd/yyyy" = Ok "02/11/2014".
Proof. repeat split. Qed.

(** A day that the month does not have, a month name in any case, and
    text after the date. *)
Example parse_edge_cases :
  DateFns.parse "31/2/2024" "d/M/yyyy" (mkYmd 2026 5 15) = Ok InvalidDate
  /\ DateFns.parse "29/2/2024" "d/M/yyyy" (mkYmd 2026 5 15)
     = Ok (ValidDate (mkYmd 2024 1 29))
  /\ DateFns.parse "03-dEC-2025" "dd-MMM-yyyy" (mkYmd 2026 5 15)
     = Ok (ValidDate (mkYmd 2025 11 3))
  /\ DateFns.parse "2024-02-29T10:11:12" "yyyy-MM-dd'T'HH:mm:ss" (mkYmd 2026 5 15)
     = Ok (ValidDate (mkYmd 2024 1 29))
  /\ DateFns.parse "1/2/2020x" "d/M/yyyy" (mkYmd 2026 5 15) = Ok InvalidDate.
Proof. repeat split. Qed.

(** Scenario 1 of the specification: ["007"] in A and ["7"] in B match
    once leading zeros are removed from [ID] on side A. *)
Example scenario_leading_zeros :
  let config :=
    mkConfig [mkKeyMapping "k1" "ID" "CUST"]
             (mkRules false true ["ID"] false [] false [] false []) in
  let fileA :=
    mkCsvFile "a.csv" [[("ID", JStr "007"); ("NAME", JStr "Alice")]] ["ID"; "NAME"] 20 in
  let fileB :=
    mkCsvFile "b.csv" [[("CUST", JStr "7"); ("NAME", JStr "Alice")]] ["CUST"; "NAME"] 20 in
  exists logs r,
    runComparison (runtime 2026 false) fileA fileB config = (logs, Ok r)
    /\ matched (stats r) = 1 /\ missingInA (stats r) = 0 /\ missingInB (stats r) = 0.
Proof. eexists _, _. repeat split. Qed.

(** Scenario 2 of the specification: with white space stripped, ["  X  "]
    and ["X"] are one unique row and one duplicate. *)
Example scenario_duplicates :
  let fileA :=
    mkCsvFile "a.csv" [[("ID", JStr "  X  ")]; [("ID", JStr "X")]] ["ID"] 10 in
  exists logs r,
    runComparison (runtime 2026 false) fileA onceB configStrip = (logs, Ok r)
    /\ duplicatesA (stats r) = 1 /\ validUniqueA (stats r) = 1.
Proof. eexists _, _. repeat split. Qed.

(** ** Strings *)

Lemma trimEnd_idempotent (s : string) : trimEnd (trimEnd s) = trimEnd s.
Proof.
  induction s as [|c s IH]; simpl; [reflexivity|].
  destruct (trimEnd s) as [|a t] eqn:E.
  - destruct (isWhitespace c) eqn:W; simpl; [reflexivity|now rewrite W].
  - change (trimEnd (String c (String a t)))
      with (match trimEnd (String a t) with
            | EmptyString => if isWhitespace c then EmptyString else String c EmptyString
            | t' => String c t'
            end).
    now rewrite IH.
Qed.

Lemma trimStart_head (s : string) :
  match trimStart s with
  | EmptyString => True
  | String c _ => isWhitespace c = false
  end.
Proof.
  induction s as [|c s IH]; simpl; [exact I|].
  destruct (isWhitespace c) eqn:W; [exact IH|exact W].
Qed.

Lemma trimEnd_head (c : ascii) (s : string) :
  isWhitespace c = false -> exists t, trimEnd (String c s) = String c t.
Proof.
  intros W; simpl. destruct (trimEnd s); [rewrite W|]; eauto.
Qed.

Lemma trimStart_fixed (s : string) :
  match s with EmptyString => True | String c _ => isWhitespace c = false end ->
  trimStart s = s.
Proof.
  destruct s as [|c s]; simpl; [reflexivity|]. now intros ->.
Qed.

Lemma trim_idempotent (s : string) : trim (trim s) = trim s.
Proof.
  unfold trim.
  assert (H : trimStart (trimEnd (trimStart s)) = trimEnd (trimStart s)).
  { apply trimStart_fixed. pose proof (trimStart_head s) as Hh.
    destruct (trimStart s) as [|c t]; [exact I|].
    destruct (trimEnd_head c t Hh) as [t' ->]. exact Hh. }
  rewrite H. apply trimEnd_idempotent.
Qed.

Lemma noWhitespace_cons (c : ascii) (s : string) :
  noWhitespace (String c s) <-> isWhitespace c = false /\ noWhitespace s.
Proof. unfold noWhitespace; simpl. apply orb_false_iff. Qed.

Lemma noWhitespace_trimEnd (s : string) : noWhitespace s -> trimEnd s = s.
Proof.
  induction s as [|c s IH]; [reflexivity|].
  intros [W H]%noWhitespace_cons. simpl. rewrite (IH H), W. now destruct s.
Qed.

Lemma noWhitespace_trim (s : string) : noWhitespace s -> trim s = s.
Proof.
  intros H. unfold trim. rewrite trimStart_fixed.
  - now apply noWhitespace_trimEnd.
  - destruct s; [exact I|]. now apply noWhitespace_cons in H.
Qed.

Lemma noWhitespace_removeWhitespace (s : string) :
  noWhitespace s -> removeWhitespace s = s.
Proof.
  induction s as [|c s IH]; [reflexivity|].
  intros [W H]%noWhitespace_cons. unfold removeWhitespace in *; simpl.
  now rewrite W, (IH H).
Qed.

Lemma removeWhitespace_noWhitespace (s : string) : noWhitespace (removeWhitespace s).
Proof.
  induction s as [|c s IH]; [reflexivity|].
  unfold removeWhitespace; simpl. destruct (isWhitespace c) eqn:W; simpl; [exact IH|].
  apply noWhitespace_cons. now split.
Qed.

Lemma noWhitespace_removeLeadingZeros (s : string) :
  noWhitespace s -> noWhitespace (removeLeadingZeros s).
Proof.
  induction s as [|c s IH]; [easy|].
  intros H. simpl. destruct (Ascii.eqb c "0"); [|exact H].
  apply IH. now apply noWhitespace_cons in H.
Qed.

Lemma removeLeadingZeros_idempotent (s : string) :
  removeLeadingZeros (removeLeadingZeros s) = removeLeadingZeros s.
Proof.
  induction s as [|c s IH]; [reflexivity|]. simpl.
  destruct (Ascii.eqb c "0") eqn:E; [exact IH|]. simpl. now rewrite E.
Qed.

(** A string read back as a cell value is coerced to itself. *)
Lemma toString_or_else_string (s : string) : toString (or_else (JStr s) (JStr "")) = s.
Proof.
  unfold or_else; simpl. destruct (String.eqb s "") eqn:E; simpl; [|reflexivity].
  now apply String.eqb_eq in E.
Qed.

(** ** The normaliser: cleaning is idempotent under the stated rules *)

Lemma cleanValue_idempotent (value : jsval) (fieldName : string)
      (config : ComparisonConfig) (isSourceA : bool) :
  (removesLeadingZeros config fieldName isSourceA = true ->
   trimWhitespace (rules config) = true) ->
  cleanValue (JStr (cleanValue value fieldName config isSourceA))
             fieldName config isSourceA
  = cleanValue value fieldName config isSourceA.
Proof.
  intros Hz. unfold cleanValue at 1. rewrite toString_or_else_string.
  unfold cleanValue.
  set (v := trim (toString (or_else value (JStr "")))).
  destruct (removesLeadingZeros config fieldName isSourceA) eqn:Z.
  - rewrite (Hz eq_refl).
    pose proof (noWhitespace_removeLeadingZeros _ (removeWhitespace_noWhitespace v)) as H.
    rewrite (noWhitespace_trim _ H), (noWhitespace_removeWhitespace _ H).
    apply removeLeadingZeros_idempotent.
  - destruct (trimWhitespace (rules config)).
    + pose proof (removeWhitespace_noWhitespace v) as H.
      now rewrite (noWhitespace_trim _ H), (noWhitespace_removeWhitespace _ H).
    + subst v. apply trim_idempotent.
Qed.

(** C3, the claim as it holds: [normalizeValue] applied to its own result
    returns that result again, for a field whose dates are not normalised
    and, when leading zeros are removed from the field, with white space
    stripped. *)
Theorem normalizeValue_idempotent
        (env : Env) (value : jsval) (fieldName : string)
        (config : ComparisonConfig) (isSourceA : bool) :
  shouldNormalizeDate config fieldName isSourceA = false ->
  (removesLeadingZeros config fieldName isSourceA = true ->
   trimWhitespace (rules config) = true) ->
  exists s,
    normalizeValue env value fieldName config isSourceA = Ok s
    /\ normalizeValue env (JStr s) fieldName config isSourceA = Ok s.
Proof.
  intros Hd Hz. exists (cleanValue value fieldName config isSourceA).
  unfold normalizeValue. rewrite Hd. split; [reflexivity|].
  f_equal. now apply cleanValue_idempotent.
Qed.

Lemma normalizeValue_idempotent_witness :
  exists s,
    normalizeValue (runtime 2026 false) (JStr " 0 0 7 ") "ID" configStrip true = Ok s
    /\ normalizeValue (runtime 2026 false) (JStr s) "ID" configStrip true = Ok s.
Proof.
  apply (normalizeValue_idempotent (runtime 2026 false) (JStr " 0 0 7 ") "ID"
                                   configStrip true).
  - reflexivity.
  - intros _. reflexivity.
Defined.

(** C3, the claim as stated fails. With leading zeros removed and white
    space kept, ["0 7"] becomes [" 7"], which becomes ["7"]. With dates
    normalised where local time is behind UTC, ["2025-12-03"] becomes
    ["2025-12-02"], which becomes ["2025-12-01"]. *)
Lemma normalizeValue_not_idempotent :
  (normalizeValue (runtime 2026 false) (JStr "0 7") "ID" configZeros true = Ok " 7"
   /\ normalizeValue (runtime 2026 false) (JStr " 7") "ID" configZeros true = Ok "7")
  /\ (normalizeValue (runtime 2026 true) (JStr "2025-12-03") "D" configDates true
      = Ok "2025-12-02"
      /\ normalizeValue (runtime 2026 true) (JStr "2025-12-02") "D" configDates true
         = Ok "2025-12-01").
Proof. repeat split; vm_compute; reflexivity. Qed.

(** ** The normaliser returns *)

Lemma scan_returns (tokens : list DateFns.token) :
  forall used f dateStr,
    supported tokens used = true ->
    exists r, DateFns.scan tokens used f dateStr = Ok r.
Proof.
  induction tokens as [|[c n|l] rest IH]; intros used f dateStr H; simpl in *.
  - destruct (existsChar _ dateStr); eauto.
  - apply andb_prop in H as [H Hrest]. apply andb_prop in H as [Hused Hparser].
    apply negb_true_iff in Hused. rewrite Hused.
    destruct (DateFns.parserOf c n) as [[read set]|]; [|discriminate].
    destruct (read dateStr) as [[v dateStr']|]; eauto.
  - destruct (DateFns.startsWith l dateStr); eauto.
Qed.

Lemma parse_returns (dateStr fmt : string) (referenceDate : ymd) :
  usableFormat fmt = true ->
  exists d, DateFns.parse dateStr fmt referenceDate = Ok d.
Proof.
  intros H. unfold usableFormat in H.
  apply andb_prop in H as [H _]. apply andb_prop in H as [_ H].
  unfold DateFns.parse. destruct fmt; [eauto|].
  destruct (scan_returns _ [] DateFns.noFields dateStr H) as [r ->]. simpl. eauto.
Qed.

Lemma dateFormats_usable : forallb usableFormat dateFormats = true.
Proof. vm_compute. reflexivity. Qed.

(** The loop returns [null] or a valid date. *)
Lemma probeFormats_returns (env : Env) (valStr : string) (fmts : list string) :
  forallb usableFormat fmts = true ->
  exists r, probeFormats env valStr fmts = Ok r
            /\ match r with Some d => DateFns.isValid d = true | None => True end.
Proof.
  induction fmts as [|fmt rest IH]; simpl; intros H.
  - exists None. split; [reflexivity|exact I].
  - apply andb_prop in H as [Hfmt Hrest].
    destruct (parse_returns valStr fmt (today env) Hfmt) as [d ->]. simpl.
    destruct d as [|x]; [now apply IH|].
    destruct ((year x >? 1900) && (year x <? 2100)); [|now apply IH].
    exists (Some (ValidDate x)). split; reflexivity.
Qed.

Lemma format_returns (d : ymd) :
  exists s, DateFns.format (ValidDate d) "yyyy-MM-dd" = Ok s.
Proof. eexists. cbn. reflexivity. Qed.

Lemma normalizeDate_returns (env : Env) (valStr : string) :
  exists s, normalizeDate env valStr = Ok s.
Proof.
  unfold normalizeDate.
  set (v := if matchAtoms reDayMonYear valStr then toTitleCase valStr else valStr).
  destruct (DateFns.isValid (nativeDate env v) && existsChar isDash v
            && (10 <=? length v)%nat && matchAtoms reIsoDate v) eqn:Hiso.
  - simpl. repeat (apply andb_prop in Hiso as [Hiso _]). rewrite Hiso.
    destruct (nativeDate env v) as [|d]; [discriminate|]. apply format_returns.
  - destruct (probeFormats_returns env v dateFormats dateFormats_usable)
      as [[d|] [-> Hvalid]]; simpl; [|eauto].
    rewrite Hvalid. destruct d as [|d]; [discriminate|]. apply format_returns.
Qed.

Lemma normalizeValue_returns (env : Env) (value : jsval) (fieldName : string)
      (config : ComparisonConfig) (isSourceA : bool) :
  exists s, normalizeValue env value fieldName config isSourceA = Ok s.
Proof.
  unfold normalizeValue.
  destruct (shouldNormalizeDate config fieldName isSourceA); [|eauto].
  apply normalizeDate_returns.
Qed.

Lemma normalizeInto_returns (env : Env) (r : Row) (config : ComparisonConfig)
      (isSourceA : bool) (hs : list string) :
  forall normalized,
    exists out, normalizeInto env r config isSourceA hs normalized = Ok out.
Proof.
  induction hs as [|header rest IH]; intros normalized; simpl; [eauto|].
  destruct (normalizeValue_returns env (getField r header) header config isSourceA)
    as [v ->]. simpl. apply IH.
Qed.

Lemma getNormalizedRow_returns (env : Env) (r : Row) (hs : list string)
      (config : ComparisonConfig) (isSourceA : bool) :
  exists out, getNormalizedRow env r hs config isSourceA = Ok out.
Proof. apply normalizeInto_returns. Qed.

Lemma signatureOf_returns (env : Env) (file : CsvFile) (config : ComparisonConfig)
      (isSourceA : bool) (r : Row) :
  exists normalizedRow,
    getNormalizedRow env r (headers file) config isSourceA = Ok normalizedRow
    /\ signatureOf env file config isSourceA r = Some (JSON_stringify normalizedRow).
Proof.
  unfold signatureOf.
  destruct (getNormalizedRow_returns env r (headers file) config isSourceA) as [nr ->].
  eauto.
Qed.

(** ** [Map] and [Set] *)

Section MapFacts.
Context {V : Type}.
Implicit Types (m : JsMap V) (key : string) (value : V).

Lemma Map_get_set m key value key' :
  Map_get (Map_set m key value) key'
  = if String.eqb key key' then Some value else Map_get m key'.
Proof.
  induction m as [|[k v] m IH]; simpl.
  - reflexivity.
  - destruct (String.eqb k key) eqn:E; simpl.
    + apply String.eqb_eq in E; subst k. now destruct (String.eqb key key').
    + rewrite IH. destruct (String.eqb k key') eqn:E'; [|reflexivity].
      apply String.eqb_eq in E'; subst k. now rewrite String.eqb_sym, E.
Qed.

Lemma Map_has_set m key value key' :
  Map_has (Map_set m key value) key' = String.eqb key key' || Map_has m key'.
Proof.
  unfold Map_has. rewrite Map_get_set. now destruct (String.eqb key key').
Qed.

Lemma Map_set_length_new m key value :
  Map_has m key = false -> List.length (Map_set m key value) = S (List.length m).
Proof.
  unfold Map_has. induction m as [|[k v] m IH]; simpl; [reflexivity|].
  destruct (String.eqb k key); [discriminate|]. intros H. simpl. now rewrite IH.
Qed.
End MapFacts.

Lemma Set_has_cons (seen : JsSet) (s key : string) :
  Set_has (s :: seen) key = String.eqb s key || Set_has seen key.
Proof. unfold Set_has; simpl. now rewrite String.eqb_sym. Qed.

Lemma Set_has_In (s : JsSet) (key : string) : Set_has s key = true <-> In key s.
Proof.
  unfold Set_has. rewrite existsb_exists. split.
  - intros [x [Hin E]]. apply String.eqb_eq in E. now subst.
  - intros H. exists key. split; [exact H|apply String.eqb_refl].
Qed.

(** ** De-duplication *)

Section Dedup.
Variables (env : Env) (file : CsvFile) (config : ComparisonConfig)
          (isSourceA : bool).

Let sigOf := signatureOf env file config isSourceA.
Let stepRow := dedupRow env file config isSourceA.

Let sigsOf (rows : list Row) : list string :=
  flat_map (fun r => match sigOf r with Some s => [s] | None => [] end) rows.

Lemma dedupRow_signature (m : JsMap NormalizedRow) (r : Row) :
  exists normalizedRow,
    sigOf r = Some (JSON_stringify normalizedRow)
    /\ stepRow m r = if Map_has m (JSON_stringify normalizedRow) then m
                     else Map_set m (JSON_stringify normalizedRow) normalizedRow.
Proof.
  destruct (signatureOf_returns env file config isSourceA r) as [nr [Hn Hs]].
  exists nr. split; [exact Hs|].
  unfold stepRow, dedupRow. rewrite Hn.
  now destruct (Map_has m (JSON_stringify nr)).
Qed.

(** Every row either adds a signature to the map or repeats one. *)
Lemma dedup_count (rows : list Row) :
  forall (m : JsMap NormalizedRow) (seen : list string),
    (forall key, Set_has seen key = Map_has m key) ->
    lengthOf (fold_left stepRow rows m) + countRepeats seen (sigsOf rows)
    = lengthOf m + lengthOf rows.
Proof.
  unfold lengthOf.
  induction rows as [|r rows IH]; intros m seen Hseen; [simpl; lia|].
  cbn [fold_left]. unfold sigsOf. cbn [flat_map]. fold (sigsOf rows).
  destruct (dedupRow_signature m r) as [nr [Hs Hstep]].
  rewrite Hs, Hstep. cbn [app countRepeats]. rewrite Hseen.
  change (List.length (r :: rows)) with (S (List.length rows)).
  rewrite Nat2Z.inj_succ.
  destruct (Map_has m (JSON_stringify nr)) eqn:Hhas.
  - specialize (IH m seen Hseen). lia.
  - specialize (IH (Map_set m (JSON_stringify nr) nr) (JSON_stringify nr :: seen)).
    rewrite Map_set_length_new in IH by exact Hhas.
    rewrite Nat2Z.inj_succ in IH. rewrite IH; [lia|].
    intros key. now rewrite Set_has_cons, Map_has_set, Hseen.
Qed.

Lemma dedup_keeps (rows : list Row) :
  forall (m : JsMap NormalizedRow) key,
    Map_has m key = true -> Map_has (fold_left stepRow rows m) key = true.
Proof.
  induction rows as [|r rows IH]; intros m key H; simpl; [exact H|].
  apply IH. destruct (dedupRow_signature m r) as [nr [_ ->]].
  destruct (Map_has m (JSON_stringify nr)); [exact H|].
  rewrite Map_has_set, H. apply orb_true_r.
Qed.

(** The signature of every row is in the map at the end. *)
Lemma dedup_covers (rows : list Row) :
  forall (m : JsMap NormalizedRow) r,
    In r rows ->
    exists normalizedRow,
      getNormalizedRow env r (headers file) config isSourceA = Ok normalizedRow
      /\ Map_has (fold_left stepRow rows m) (JSON_stringify normalizedRow) = true.
Proof.
  induction rows as [|r0 rows IH]; intros m r Hin; [contradiction|].
  simpl. destruct Hin as [->|Hin]; [|now apply IH].
  destruct (signatureOf_returns env file config isSourceA r) as [nr [Hn _]].
  exists nr. split; [exact Hn|]. apply dedup_keeps.
  unfold stepRow, dedupRow. rewrite Hn.
  destruct (Map_has m (JSON_stringify nr)) eqn:Hhas; simpl; [exact Hhas|].
  rewrite Map_has_set, String.eqb_refl. reflexivity.
Qed.

Lemma skippedRows_nil : skippedRows env file config isSourceA = [].
Proof.
  unfold skippedRows. induction (data file) as [|r rows IH]; [reflexivity|].
  simpl. destruct (signatureOf_returns env file config isSourceA r) as [nr [_ ->]].
  exact IH.
Qed.

Lemma duplicates_are_repeats :
  lengthOf (Map_values (dedupe env file config isSourceA))
  + countRepeats [] (signatures env file config isSourceA)
  = lengthOf (data file).
Proof.
  pose proof (dedup_count (data file) [] [] (fun _ => eq_refl)) as H.
  unfold Map_values, lengthOf in *. rewrite length_map.
  unfold dedupe, signatures. fold sigOf. fold (sigsOf (data file)).
  fold stepRow. simpl in H. lia.
Qed.
End Dedup.

(** ** The shape of what [processSource] and [runComparison] return *)

Lemma processed_fields (env : Env) (file : CsvFile) (config : ComparisonConfig)
      (isSourceA : bool) :
  let p := processed env file config isSourceA in
  let unique := Map_values (dedupe env file config isSourceA) in
  validUniqueRows p = unique
  /\ duplicatesCount p = lengthOf (data file) - lengthOf unique
  /\ keyToRowsMap p = fst (buildIndex config isSourceA unique)
  /\ allKeys p = snd (buildIndex config isSourceA unique).
Proof.
  unfold processed, processSource.
  destruct (buildIndex config isSourceA
              (Map_values (dedupe env file config isSourceA))) as [m s].
  simpl. auto.
Qed.

Lemma runComparison_fields (env : Env) (fileA fileB : CsvFile)
      (config : ComparisonConfig) :
  let procA := processed env fileA config true in
  let procB := processed env fileB config false in
  let missingKeysInB := missingKeys (allKeys procA) (allKeys procB) in
  let missingKeysInA := missingKeys (allKeys procB) (allKeys procA) in
  exists logs r,
    runComparison env fileA fileB config = (logs, Ok r)
    /\ rowsMissingInB r = rowsOfKeys (keyToRowsMap procA) missingKeysInB
    /\ rowsMissingInA r = rowsOfKeys (keyToRowsMap procB) missingKeysInA
    /\ duplicatedRowsA r = None
    /\ duplicatedRowsB r = None
    /\ sourceAName r = name fileA
    /\ sourceBName r = name fileB
    /\ stats r =
       {| totalA := lengthOf (data fileA);
          totalB := lengthOf (data fileB);
          validUniqueA := lengthOf (validUniqueRows procA);
          validUniqueB := lengthOf (validUniqueRows procB);
          duplicatesA := duplicatesCount procA;
          duplicatesB := duplicatesCount procB;
          missingInB := lengthOf (rowsMissingInB r);
          missingInA := lengthOf (rowsMissingInA r);
          matched := lengthOf (allKeys procA) - lengthOf missingKeysInB |}.
Proof.
  unfold processed, runComparison.
  destruct (processSource env fileA config true) as [logA procA].
  destruct (processSource env fileB config false) as [logB procB].
  simpl. eexists _, _. split; [reflexivity|]. simpl. repeat split.
Qed.

(** ** De-duplication in the result *)

(** C6: in the statistics of every run the rows of a source are its unique
    rows plus its duplicates, where the duplicates are exactly the rows
    whose signature an earlier row of the source had; no row is skipped,
    so none hides among the duplicates. *)
Theorem dedup_conservation (env : Env) (fileA fileB : CsvFile)
        (config : ComparisonConfig) :
  exists logs r,
    runComparison env fileA fileB config = (logs, Ok r)
    /\ totalA (stats r) = validUniqueA (stats r) + duplicatesA (stats r)
    /\ totalB (stats r) = validUniqueB (stats r) + duplicatesB (stats r)
    /\ duplicatesA (stats r) = countRepeats [] (signatures env fileA config true)
    /\ duplicatesB (stats r) = countRepeats [] (signatures env fileB config false)
    /\ skippedRows env fileA config true = []
    /\ skippedRows env fileB config false = [].
Proof.
  destruct (runComparison_fields env fileA fileB config)
    as [logs [r [Hrun [_ [_ [_ [_ [_ [_ Hstats]]]]]]]]].
  exists logs, r. split; [exact Hrun|]. rewrite Hstats. cbn [totalA totalB
    validUniqueA validUniqueB duplicatesA duplicatesB].
  destruct (processed_fields env fileA config true) as [Ha [Hda _]].
  destruct (processed_fields env fileB config false) as [Hb [Hdb _]].
  pose proof (duplicates_are_repeats env fileA config true) as Ra.
  pose proof (duplicates_are_repeats env fileB config false) as Rb.
  rewrite Ha, Hb, Hda, Hdb.
  repeat split; try lia; apply skippedRows_nil.
Qed.

(** C10: [normalizeValue] and [getNormalizedRow] return a value with
    string fields for every cell and every row, so the [catch] of
    [processSource] skips no row, and the signature of every row of the
    file is in the map of unique rows. *)
Theorem normalization_total (env : Env) (file : CsvFile)
        (config : ComparisonConfig) (isSourceA : bool) :
  (forall value fieldName,
      exists s : string, normalizeValue env value fieldName config isSourceA = Ok s)
  /\ (forall (r : Row) (hs : list string),
         exists normalizedRow : NormalizedRow,
           getNormalizedRow env r hs config isSourceA = Ok normalizedRow)
  /\ skippedRows env file config isSourceA = []
  /\ (forall r, In r (data file) ->
        exists normalizedRow,
          getNormalizedRow env r (headers file) config isSourceA = Ok normalizedRow
          /\ Map_has (dedupe env file config isSourceA)
                     (JSON_stringify normalizedRow) = true).
Proof.
  repeat split.
  - intros. apply normalizeValue_returns.
  - intros. apply getNormalizedRow_returns.
  - apply skippedRows_nil.
  - intros r Hin. now apply dedup_covers.
Qed.

(** ** The key index *)

Section Index.
Variables (config : ComparisonConfig) (isSourceA : bool).

Let key := buildKey config isSourceA.

(** The rows of a list that have a given key, in order. *)
Let group (rows : list NormalizedRow) (k : string) : list NormalizedRow :=
  filter (fun r => String.eqb (key r) k) rows.

(** What the map and the set hold once the rows [done] are indexed. *)
Let indexed (done : list NormalizedRow)
            (acc : JsMap (list NormalizedRow) * JsSet) : Prop :=
  NoDup (snd acc)
  /\ (forall k, In k (snd acc) <-> In k (map key done))
  /\ (forall k, Map_get (fst acc) k
                = match group done k with [] => None | l => Some l end).

Lemma group_app (rows : list NormalizedRow) (r : NormalizedRow) (k : string) :
  group (rows ++ [r]) k
  = (group rows k ++ (if String.eqb (key r) k then [r] else []))%list.
Proof. unfold group. rewrite filter_app. reflexivity. Qed.

Lemma group_nil_iff (rows : list NormalizedRow) (k : string) :
  group rows k = [] <-> ~ In k (map key rows).
Proof.
  unfold group. induction rows as [|r rows IH]; simpl; [tauto|].
  destruct (String.eqb (key r) k) eqn:E.
  - apply String.eqb_eq in E. split; [discriminate|]. intros H; exfalso; auto.
  - apply String.eqb_neq in E. rewrite IH. tauto.
Qed.

Lemma indexRow_indexed (done : list NormalizedRow) (r : NormalizedRow)
      (acc : JsMap (list NormalizedRow) * JsSet) :
  indexed done acc -> indexed (done ++ [r]) (indexRow config isSourceA acc r).
Proof.
  destruct acc as [m s]. intros [Hnd [Hkeys Hget]]. simpl in *.
  unfold indexRow. fold key. repeat split; simpl.
  - unfold Set_add. destruct (Set_has s (key r)) eqn:E; [exact Hnd|].
    apply NoDup_app; [exact Hnd|repeat constructor; intros []|].
    intros a Ha [<-|[]]. apply Set_has_In in Ha. congruence.
  - unfold Set_add. rewrite map_app, in_app_iff. simpl.
    destruct (Set_has s (key r)) eqn:E.
    + intros H. apply Hkeys in H. auto.
    + rewrite in_app_iff. simpl. rewrite Hkeys. tauto.
  - unfold Set_add. rewrite map_app, in_app_iff. simpl.
    destruct (Set_has s (key r)) eqn:E.
    + rewrite Hkeys. intros [H|[<-|[]]]; [exact H|].
      apply Hkeys. now apply Set_has_In.
    + rewrite in_app_iff. simpl. rewrite Hkeys. tauto.
  - intros k. rewrite Map_get_set, group_app.
    assert (Hrows :
      match Map_get (if negb (Map_has m (key r)) then Map_set m (key r) [] else m)
                    (key r) with
      | Some rs => rs
      | None => []
      end = group done (key r)).
    { unfold Map_has. rewrite (Hget (key r)).
      destruct (group done (key r)) eqn:G; simpl.
      - rewrite Map_get_set, String.eqb_refl. reflexivity.
      - rewrite (Hget (key r)), G. reflexivity. }
    rewrite Hrows.
    destruct (String.eqb (key r) k) eqn:E.
    + apply String.eqb_eq in E. subst k.
      destruct (group done (key r)); reflexivity.
    + rewrite app_nil_r.
      destruct (negb (Map_has m (key r))); [|apply Hget].
      rewrite Map_get_set, E. apply Hget.
Qed.

Lemma fold_indexed (rows : list NormalizedRow) :
  forall done acc,
    indexed done acc ->
    indexed (done ++ rows) (fold_left (indexRow config isSourceA) rows acc).
Proof.
  induction rows as [|r rows IH]; intros done acc H; simpl.
  - now rewrite app_nil_r.
  - replace (done ++ r :: rows)%list with ((done ++ [r]) ++ rows)%list
      by (rewrite <- app_assoc; reflexivity).
    apply IH. now apply indexRow_indexed.
Qed.

Lemma buildIndex_indexed (rows : list NormalizedRow) :
  indexed rows (buildIndex config isSourceA rows).
Proof.
  apply (fold_indexed rows [] ([], [])). repeat split; simpl; try tauto.
  constructor.
Qed.

(** The set holds the keys of the rows, each once. *)
Lemma buildIndex_keys (rows : list NormalizedRow) :
  NoDup (snd (buildIndex config isSourceA rows))
  /\ forall k, In k (snd (buildIndex config isSourceA rows))
               <-> exists r, In r rows /\ buildKey config isSourceA r = k.
Proof.
  destruct (buildIndex_indexed rows) as [Hnd [Hkeys _]].
  split; [exact Hnd|]. intros k. rewrite Hkeys, in_map_iff.
  split; intros [r [H1 H2]]; exists r; tauto.
Qed.

(** The map holds, under a key, the rows that have this key. *)
Lemma buildIndex_rows (rows : list NormalizedRow) (k : string)
      (under : list NormalizedRow) :
  Map_get (fst (buildIndex config isSourceA rows)) k = Some under ->
  forall r, In r under <-> In r rows /\ buildKey config isSourceA r = k.
Proof.
  destruct (buildIndex_indexed rows) as [_ [_ Hget]].
  rewrite Hget. intros H r.
  assert (under = group rows k) as -> by (destruct (group rows k); congruence).
  unfold group. rewrite filter_In, String.eqb_eq. reflexivity.
Qed.

Lemma buildIndex_has (rows : list NormalizedRow) (k : string) :
  In k (snd (buildIndex config isSourceA rows)) ->
  exists under, Map_get (fst (buildIndex config isSourceA rows)) k = Some under.
Proof.
  destruct (buildIndex_indexed rows) as [_ [Hkeys Hget]].
  intros H. apply Hkeys in H. rewrite Hget.
  destruct (group rows k) eqn:G; [|eauto].
  now apply group_nil_iff in G.
Qed.
End Index.

(** ** Reconciliation *)

Lemma missingKeys_In (mine theirs : JsSet) (k : string) :
  In k (missingKeys mine theirs) <-> In k mine /\ ~ In k theirs.
Proof.
  unfold missingKeys. rewrite filter_In, negb_true_iff.
  rewrite <- (Set_has_In theirs k).
  destruct (Set_has theirs k); intuition congruence.
Qed.

Lemma missingKeys_length (mine theirs : JsSet) :
  lengthOf (filter (Set_has theirs) mine) + lengthOf (missingKeys mine theirs)
  = lengthOf mine.
Proof.
  unfold lengthOf, missingKeys.
  pose proof (filter_length (Set_has theirs) mine) as H. lia.
Qed.

(** Two duplicate-free lists meet in as many elements from either side. *)
Lemma common_length (a b : JsSet) :
  NoDup a -> NoDup b ->
  lengthOf (filter (Set_has b) a) = lengthOf (filter (Set_has a) b).
Proof.
  intros Ha Hb. unfold lengthOf. f_equal. apply Permutation_length.
  apply NoDup_Permutation; try now apply NoDup_filter.
  intros k. rewrite !filter_In, !Set_has_In. tauto.
Qed.

Lemma rowsOfKeys_In (keyToRows : JsMap (list NormalizedRow)) (keys : list string)
      (r : NormalizedRow) :
  In r (rowsOfKeys keyToRows keys)
  <-> exists k under, In k keys /\ Map_get keyToRows k = Some under /\ In r under.
Proof.
  unfold rowsOfKeys. rewrite in_flat_map. split.
  - intros [k [Hk Hr]]. destruct (Map_get keyToRows k) as [under|] eqn:G;
      [|contradiction]. eauto.
  - intros [k [under [Hk [G Hr]]]]. exists k. rewrite G. auto.
Qed.

Lemma allKeys_NoDup (env : Env) (file : CsvFile) (config : ComparisonConfig)
      (isSourceA : bool) :
  NoDup (allKeys (processed env file config isSourceA)).
Proof.
  destruct (processed_fields env file config isSourceA) as [_ [_ [_ ->]]].
  apply buildIndex_keys.
Qed.

(** The rows under the missing keys of one side: rows of that side, keyed
    by a key of that side which the other side does not have; and every
    row of that side with such a key is among them. *)
Lemma missing_rows (env : Env) (mine theirs : CsvFile) (config : ComparisonConfig)
      (side : bool) :
  let p := processed env mine config side in
  let q := processed env theirs config (negb side) in
  forall r,
    In r (rowsOfKeys (keyToRowsMap p) (missingKeys (allKeys p) (allKeys q)))
    <-> In r (validUniqueRows p) /\ ~ In (buildKey config side r) (allKeys q).
Proof.
  intros p q r. subst p q.
  destruct (processed_fields env mine config side) as [Hu [_ [Hm Hk]]].
  rewrite rowsOfKeys_In, Hm, Hk, Hu. split.
  - intros [k [under [Hmiss [Hget Hin]]]].
    apply (buildIndex_rows config side _ k under Hget) in Hin as [Hin <-].
    apply missingKeys_In in Hmiss. tauto.
  - intros [Hin Hnot].
    assert (Hkey : In (buildKey config side r)
                      (snd (buildIndex config side
                              (Map_values (dedupe env mine config side))))).
    { apply buildIndex_keys. eauto. }
    destruct (buildIndex_has config side _ _ Hkey) as [under Hget].
    exists (buildKey config side r), under. repeat split.
    + apply missingKeys_In. tauto.
    + exact Hget.
    + apply (buildIndex_rows config side _ _ under Hget). tauto.
Qed.

(** C4: the matched count of every run, with the keys only in A, makes up
    the keys of A, and with the keys only in B the keys of B; it is the
    number of common keys counted from either side. The key mappings need
    not be non-empty for this. *)
Theorem key_partition (env : Env) (fileA fileB : CsvFile)
        (config : ComparisonConfig) :
  exists logs r,
    runComparison env fileA fileB config = (logs, Ok r)
    /\ (let keySetA := allKeys (processed env fileA config true) in
        let keySetB := allKeys (processed env fileB config false) in
        let keysOnlyInA := missingKeys keySetA keySetB in
        let keysOnlyInB := missingKeys keySetB keySetA in
        matched (stats r) + lengthOf keysOnlyInA = lengthOf keySetA
        /\ matched (stats r) + lengthOf keysOnlyInB = lengthOf keySetB
        /\ matched (stats r) = lengthOf (filter (Set_has keySetB) keySetA)
        /\ matched (stats r) = lengthOf (filter (Set_has keySetA) keySetB)).
Proof.
  destruct (runComparison_fields env fileA fileB config)
    as [logs [r [Hrun [_ [_ [_ [_ [_ [_ Hstats]]]]]]]]].
  exists logs, r. split; [exact Hrun|]. rewrite Hstats. cbn [matched].
  set (keySetA := allKeys (processed env fileA config true)).
  set (keySetB := allKeys (processed env fileB config false)).
  pose proof (missingKeys_length keySetA keySetB) as HA.
  pose proof (missingKeys_length keySetB keySetA) as HB.
  pose proof (common_length keySetA keySetB
                (allKeys_NoDup env fileA config true)
                (allKeys_NoDup env fileB config false)) as HC.
  cbv zeta. repeat split; lia.
Qed.

(** C5: in every run, a row reported missing in B is a unique row of A
    whose composite key is a key of A that B does not have, and
    symmetrically; so no row whose key is in both key sets is in either
    list; and for a key only in A, the rows indexed under it are the
    unique rows of A with this key and are all reported missing in B, and
    symmetrically. *)
Theorem missing_rows_superset (env : Env) (fileA fileB : CsvFile)
        (config : ComparisonConfig) :
  exists logs r,
    runComparison env fileA fileB config = (logs, Ok r)
    /\ (let procA := processed env fileA config true in
        let procB := processed env fileB config false in
        let keyA := buildKey config true in
        let keyB := buildKey config false in
        (forall x, In x (rowsMissingInB r) ->
           In x (validUniqueRows procA)
           /\ In (keyA x) (allKeys procA) /\ ~ In (keyA x) (allKeys procB))
        /\ (forall x, In x (rowsMissingInA r) ->
              In x (validUniqueRows procB)
              /\ In (keyB x) (allKeys procB) /\ ~ In (keyB x) (allKeys procA))
        /\ (forall x, In (keyA x) (allKeys procA) -> In (keyA x) (allKeys procB) ->
              ~ In x (rowsMissingInB r))
        /\ (forall x, In (keyB x) (allKeys procA) -> In (keyB x) (allKeys procB) ->
              ~ In x (rowsMissingInA r))
        /\ (forall k, In k (missingKeys (allKeys procA) (allKeys procB)) ->
              exists under,
                Map_get (keyToRowsMap procA) k = Some under
                /\ (forall x, In x under <-> In x (validUniqueRows procA) /\ keyA x = k)
                /\ (forall x, In x under -> In x (rowsMissingInB r)))
        /\ (forall k, In k (missingKeys (allKeys procB) (allKeys procA)) ->
              exists under,
                Map_get (keyToRowsMap procB) k = Some under
                /\ (forall x, In x under <-> In x (validUniqueRows procB) /\ keyB x = k)
                /\ (forall x, In x under -> In x (rowsMissingInA r)))).
Proof.
  destruct (runComparison_fields env fileA fileB config)
    as [logs [r [Hrun [HB [HA _]]]]].
  exists logs, r. split; [exact Hrun|]. cbv zeta. rewrite HB, HA.
  pose proof (missing_rows env fileA fileB config true) as MB.
  pose proof (missing_rows env fileB fileA config false) as MA.
  cbv zeta in MB, MA. simpl negb in MB, MA.
  assert (keysOf : forall env file side x,
             In x (validUniqueRows (processed env file config side)) ->
             In (buildKey config side x) (allKeys (processed env file config side))).
  { intros e f s x Hx.
    destruct (processed_fields e f config s) as [Hu [_ [_ Hk]]].
    rewrite Hk. rewrite Hu in Hx. apply buildIndex_keys. eauto. }
  assert (under : forall env file side k,
             In k (allKeys (processed env file config side)) ->
             exists under,
               Map_get (keyToRowsMap (processed env file config side)) k = Some under
               /\ forall x, In x under
                            <-> In x (validUniqueRows (processed env file config side))
                                /\ buildKey config side x = k).
  { intros e f s k Hin.
    destruct (processed_fields e f config s) as [Hu [_ [Hm Hk]]].
    rewrite Hk in Hin. destruct (buildIndex_has config s _ _ Hin) as [u Hget].
    exists u. rewrite Hm, Hu. split; [exact Hget|].
    now apply buildIndex_rows. }
  repeat split.
  - now apply MB.
  - apply keysOf. now apply MB.
  - now apply MB.
  - now apply MA.
  - apply keysOf. now apply MA.
  - now apply MA.
  - intros x _ HinB Hx. apply MB in Hx. tauto.
  - intros x HinA _ Hx. apply MA in Hx. tauto.
  - intros k [Hk Hnot]%missingKeys_In.
    destruct (under env fileA true k Hk) as [u [Hget Hu]].
    exists u. repeat split; try apply Hu; auto.
    intros x Hx. apply MB. apply Hu in Hx as [Hx <-]. tauto.
  - intros k [Hk Hnot]%missingKeys_In.
    destruct (under env fileB false k Hk) as [u [Hget Hu]].
    exists u. repeat split; try apply Hu; auto.
    intros x Hx. apply MA. apply Hu in Hx as [Hx <-]. tauto.
Qed.

(** ** The day-month-year scenario *)

Lemma normalizeTwoDigitYear_25 (currentYear : Z) :
  1976 <= currentYear <= 2075 ->
  DateFns.normalizeTwoDigitYear 25 currentYear = 2025.
Proof.
  intros H. unfold DateFns.normalizeTwoDigitYear.
  replace (currentYear >? 0) with true by (symmetry; apply Z.gtb_lt; lia).
  replace (currentYear <=? 50) with false by (symmetry; apply Z.leb_gt; lia).
  rewrite Z.quot_div_nonneg, Z.rem_mod_nonneg by lia.
  destruct (Z.leb_spec ((currentYear + 50) mod 100) 25) as [L|L];
    pose proof (Z.div_mod (currentYear + 50) 100 ltac:(lia)) as E;
    pose proof (Z.mod_pos_bound (currentYear + 50) 100 ltac:(lia)) as B; lia.
Qed.

Lemma cleanValue_3_DEC_25 (fieldName : string) (config : ComparisonConfig)
      (isSourceA : bool) :
  cleanValue (JStr "3-DEC-25") fieldName config isSourceA = "3-DEC-25".
Proof.
  unfold cleanValue.
  destruct (trimWhitespace (rules config));
    destruct (removesLeadingZeros config fieldName isSourceA); reflexivity.
Qed.

Lemma probeFormats_skip (env : Env) (valStr fmt : string) (rest : list string) :
  DateFns.parse valStr fmt (today env) = Ok InvalidDate ->
  probeFormats env valStr (fmt :: rest) = probeFormats env valStr rest.
Proof. intros H. simpl. now rewrite H. Qed.

Lemma parse_3_Dec_25 (referenceDate : ymd) :
  1976 <= year referenceDate <= 2075 ->
  DateFns.parse "3-Dec-25" "d-MMM-yy" referenceDate
  = Ok (ValidDate (mkYmd 2025 11 3)).
Proof.
  intros H. unfold DateFns.parse.
  replace (DateFns.scan (DateFns.tokenize "d-MMM-yy") [] DateFns.noFields "3-Dec-25")
    with (Ok (Some (DateFns.mkFields (Some (25, true)) (Some 11) (Some 3)
                                     None None None)))
    by (vm_compute; reflexivity).
  cbn [bind]. unfold DateFns.resolve.
  cbn [DateFns.fYear DateFns.fMonth DateFns.fDay DateFns.fHour DateFns.fMinute
       DateFns.fSecond DateFns.step orb year].
  rewrite (normalizeTwoDigitYear_25 _ H). reflexivity.
Qed.

(** C8, the claim as it holds: in a run whose clock is in a year from 1976
    to 2075, for a field whose dates are normalised on its side,
    ["3-DEC-25"] normalises to ["2025-12-03"]: it matches the
    day-month-year pattern and is re-cased to ["3-Dec-25"]; the eight
    formats before [d-MMM-yy] do not parse it; [d-MMM-yy] gives 3 December
    2025, the two-digit year being read within fifty years of the clock;
    this year is between 1900 and 2100; and the date is rendered as
    [yyyy-MM-dd]. *)
Theorem normalize_3_DEC_25 (env : Env) (fieldName : string)
        (config : ComparisonConfig) (isSourceA : bool) :
  shouldNormalizeDate config fieldName isSourceA = true ->
  1976 <= year (today env) <= 2075 ->
  normalizeValue env (JStr "3-DEC-25") fieldName config isSourceA = Ok "2025-12-03"
  /\ matchAtoms reDayMonYear "3-DEC-25" = true
  /\ toTitleCase "3-DEC-25" = "3-Dec-25"
  /\ probeFormats env "3-Dec-25" (firstn 8 dateFormats) = Ok None
  /\ nth_error dateFormats 8 = Some "d-MMM-yy"
  /\ DateFns.parse "3-Dec-25" "d-MMM-yy" (today env)
     = Ok (ValidDate (mkYmd 2025 11 3))
  /\ DateFns.format (ValidDate (mkYmd 2025 11 3)) "yyyy-MM-dd" = Ok "2025-12-03".
Proof.
  intros Hd Hy.
  assert (Hskip : forall rest,
             probeFormats env "3-Dec-25" (firstn 8 dateFormats ++ rest)
             = probeFormats env "3-Dec-25" rest).
  { intros rest. cbn [firstn dateFormats app].
    repeat (rewrite probeFormats_skip by reflexivity). reflexivity. }
  split.
  { unfold normalizeValue. rewrite Hd, cleanValue_3_DEC_25.
    unfold normalizeDate.
    replace (matchAtoms reDayMonYear "3-DEC-25") with true by reflexivity.
    replace (toTitleCase "3-DEC-25") with "3-Dec-25" by reflexivity.
    replace (matchAtoms reIsoDate "3-Dec-25") with false by reflexivity.
    rewrite andb_false_r.
    change dateFormats with (firstn 8 dateFormats ++ skipn 8 dateFormats)%list.
    rewrite Hskip. cbn [skipn dateFormats probeFormats].
    rewrite (parse_3_Dec_25 _ Hy). reflexivity. }
  split; [reflexivity|]. split; [reflexivity|].
  split; [rewrite <- (app_nil_r (firstn 8 dateFormats)); apply Hskip|].
  split; [reflexivity|].
  split; [now apply parse_3_Dec_25|reflexivity].
Qed.

Lemma normalize_3_DEC_25_witness :
  normalizeValue (runtime 2026 false) (JStr "3-DEC-25") "D" configDates true
  = Ok "2025-12-03".
Proof.
  apply (normalize_3_DEC_25 (runtime 2026 false) "D" configDates true).
  - reflexivity.
  - simpl. lia.
Defined.

(** C8, the claim as stated fails for a run in 2076: [yy] reads 25 as 2125,
    which is not below 2100, the formats with [yyyy] read the year 25, and
    the value stays as re-cased. *)
Lemma normalize_3_DEC_25_in_2076 :
  normalizeValue (runtime 2076 false) (JStr "3-DEC-25") "D" configDates true
  = Ok "3-Dec-25"
  /\ DateFns.parse "3-Dec-25" "d-MMM-yy" (today (runtime 2076 false))
     = Ok (ValidDate (mkYmd 2125 11 3)).
Proof. split; vm_compute; reflexivity. Qed.

(** ** The duplicate report *)

(** C1, at the failing input: A holds the same row twice, the run counts
    one duplicate, and the result has no [duplicatedRowsA] and no
    [duplicatedRowsB] to read an entry from. *)
Theorem duplicate_report_absent :
  exists logs r,
    runComparison (runtime 2026 false) twiceA onceB configById = (logs, Ok r)
    /\ signatures (runtime 2026 false) twiceA configById true
       = [JSON_stringify [("ID", "1")]; JSON_stringify [("ID", "1")]]
    /\ duplicatesA (stats r) = 1
    /\ duplicatedRowsA r = None
    /\ duplicatedRowsB r = None.
Proof. eexists _, _. repeat split; vm_compute; reflexivity. Qed.

(** No run returns a duplicate report. *)
Lemma duplicate_report_never (env : Env) (fileA fileB : CsvFile)
      (config : ComparisonConfig) :
  exists logs r,
    runComparison env fileA fileB config = (logs, Ok r)
    /\ duplicatedRowsA r = None /\ duplicatedRowsB r = None.
Proof.
  destruct (runComparison_fields env fileA fileB config)
    as [logs [r [Hrun [_ [_ [HA [HB _]]]]]]]. eauto.
Qed.

(** ** The guard on the key mappings *)

(** C2, the claim as it holds: with both files loaded and no key mapping,
    [handleRun] adds the error line and returns; the logs before it and the
    result stay, and [runComparison] is not called. The check is the
    caller's: for [runComparison] an empty list of mappings is a
    configuration like another, under which every row has the empty
    key. *)
Theorem handleRun_requires_key_mapping (env : Env) (st : AppState)
        (fileA fileB : CsvFile) :
  stFileA st = Some fileA ->
  stFileB st = Some fileB ->
  keyMappings (stConfig st) = [] ->
  handleRun env st = addLog st error "At least one key mapping is required."
  /\ stResult (handleRun env st) = stResult st
  /\ stLogs (handleRun env st)
     = (stLogs st ++ [mkLog error "At least one key mapping is required."])%list
  /\ forall isSourceA r, buildKey (stConfig st) isSourceA r = "".
Proof.
  intros HA HB HK. unfold handleRun. rewrite HA, HB, HK. simpl.
  repeat split. intros isSourceA r. unfold buildKey, keyParts. now rewrite HK.
Qed.

Lemma handleRun_requires_key_mapping_witness :
  handleRun (runtime 2026 false) loadedNoKeys
  = addLog loadedNoKeys error "At least one key mapping is required.".
Proof.
  apply (handleRun_requires_key_mapping (runtime 2026 false) loadedNoKeys
                                        twiceA onceB); reflexivity.
Defined.

(** C2, the claim as stated fails: called with no key mapping,
    [runComparison] returns a complete result; both sources were
    normalised and de-duplicated, and every row was indexed under the
    empty key. *)
Lemma runComparison_accepts_no_key_mapping :
  keyMappings configNoKeys = []
  /\ exists logs r,
       runComparison (runtime 2026 false) twiceA onceB configNoKeys = (logs, Ok r)
       /\ In (mkLog info "Source A: Removed 1 duplicate rows.") logs
       /\ validUniqueRows (processed (runtime 2026 false) twiceA configNoKeys true)
          = [[("ID", "1")]]
       /\ allKeys (processed (runtime 2026 false) twiceA configNoKeys true) = [""]
       /\ stats r = {| totalA := 2; totalB := 1;
                       validUniqueA := 1; validUniqueB := 1;
                       duplicatesA := 1; duplicatesB := 0;
                       missingInB := 0; missingInA := 0; matched := 1 |}.
Proof.
  split; [reflexivity|]. eexists _, _.
  split; [vm_compute; reflexivity|]. split.
  - simpl. tauto.
  - repeat split; vm_compute; reflexivity.
Qed.

(** ** Composite keys *)

(** C9: the composite key is not injective. With two key columns, a row
    with values ["1|2"] and ["3"] and a row with values ["1"] and ["2|3"]
    have different tuples of key values and the same key ["1|2|3"], and a
    run on a file with the one and a file with the other matches them:
    one matched key, nothing missing. *)
Theorem composite_key_collision (env : Env) :
  keyParts configTwoKeys true barLeft <> keyParts configTwoKeys false barRight
  /\ buildKey configTwoKeys true barLeft = "1|2|3"
  /\ buildKey configTwoKeys false barRight = "1|2|3"
  /\ validUniqueRows (processed env fileBarLeft configTwoKeys true) = [barLeft]
  /\ validUniqueRows (processed env fileBarRight configTwoKeys false) = [barRight]
  /\ exists logs r,
       runComparison env fileBarLeft fileBarRight configTwoKeys = (logs, Ok r)
       /\ matched (stats r) = 1
       /\ rowsMissingInB r = []
       /\ rowsMissingInA r = [].
Proof.
  split; [discriminate|].
  split; [reflexivity|]. split; [reflexivity|].
  split; [reflexivity|]. split; [reflexivity|].
  eexists _, _. split; [reflexivity|]. repeat split.
Qed.

(** ** What a run takes from its runtime *)

Lemma parserOf_year (c : ascii) (n : nat) (read : DateFns.reader)
      (set : DateFns.setter) :
  DateFns.parserOf c n = Some (read, set) ->
  (Ascii.eqb c "y" = true /\ forall v f, DateFns.fYear (set v f) <> None)
  \/ (Ascii.eqb c "y" = false
      /\ forall v f, DateFns.fYear (set v f) = DateFns.fYear f).
Proof.
  unfold DateFns.parserOf.
  destruct (Ascii.eqb c "y").
  - intros [= _ <-]. left. split; [reflexivity|]. intros v f. discriminate.
  - intros H. right. split; [reflexivity|].
    destruct (Ascii.eqb c "M");
      [destruct n as [|[|[|[|?]]]]; try discriminate; now injection H as _ <-|].
    destruct (Ascii.eqb c "d"); [now injection H as _ <-|].
    destruct (Ascii.eqb c "H");
      [destruct n as [|[|?]]; try discriminate; now injection H as _ <-|].
    destruct (Ascii.eqb c "m");
      [destruct n as [|[|?]]; try discriminate; now injection H as _ <-|].
    destruct (Ascii.eqb c "s");
      [destruct n as [|[|?]]; try discriminate; now injection H as _ <-|].
    discriminate.
Qed.

(** A format with a year token leaves a year among the fields it reads. *)
Lemma scan_year (tokens : list DateFns.token) :
  forall used f dateStr f',
    DateFns.scan tokens used f dateStr = Ok (Some f') ->
    hasYear tokens = true \/ DateFns.fYear f <> None ->
    DateFns.fYear f' <> None.
Proof.
  induction tokens as [|[c n|l] rest IH]; intros used f dateStr f' H Hy; simpl in H.
  - destruct (existsChar _ dateStr); [discriminate|].
    injection H as <-. destruct Hy as [Hy|Hy]; [discriminate|exact Hy].
  - destruct (existsb (Ascii.eqb c) used); [discriminate|].
    destruct (DateFns.parserOf c n) as [[read set]|] eqn:P; [|discriminate].
    destruct (read dateStr) as [[v dateStr']|]; [|discriminate].
    apply (IH _ _ _ _ H).
    destruct (parserOf_year c n read set P) as [[_ Hset]|[Hc Hset]].
    + right. apply Hset.
    + rewrite Hset. simpl in Hy. rewrite Hc in Hy. exact Hy.
  - destruct (DateFns.startsWith l dateStr); [|discriminate].
    apply (IH _ _ _ _ H). exact Hy.
Qed.

(** Once the year is read, only the year of the reference date is used. *)
Lemma resolve_year (ref1 ref2 : ymd) (f : DateFns.fields) :
  year ref1 = year ref2 ->
  DateFns.fYear f <> None ->
  DateFns.resolve ref1 f = DateFns.resolve ref2 f.
Proof.
  intros Hy Hf. unfold DateFns.resolve.
  destruct (DateFns.fYear f) as [[y twoDigit]|]; [|contradiction].
  cbn [DateFns.step]. rewrite Hy. reflexivity.
Qed.

Lemma parse_year (dateStr fmt : string) (ref1 ref2 : ymd) :
  usableFormat fmt = true ->
  year ref1 = year ref2 ->
  DateFns.parse dateStr fmt ref1 = DateFns.parse dateStr fmt ref2.
Proof.
  intros H Hy. unfold usableFormat in H.
  apply andb_prop in H as [H Hyear]. apply andb_prop in H as [Hne _].
  unfold DateFns.parse. destruct fmt; [discriminate|].
  destruct (DateFns.scan _ [] DateFns.noFields dateStr) as [[f|]|e] eqn:S;
    simpl; try reflexivity.
  f_equal. apply resolve_year; [exact Hy|].
  apply (scan_year _ _ _ _ _ S). now left.
Qed.

Section SameRuntime.
Variables env1 env2 : Env.
Hypothesis same : sameYearAndParser env1 env2.

Lemma probeFormats_same (valStr : string) (fmts : list string) :
  forallb usableFormat fmts = true ->
  probeFormats env1 valStr fmts = probeFormats env2 valStr fmts.
Proof.
  induction fmts as [|fmt rest IH]; simpl; [reflexivity|].
  intros [Hfmt Hrest]%andb_prop.
  rewrite (parse_year valStr fmt (today env1) (today env2) Hfmt (proj1 same)).
  destruct (DateFns.parse valStr fmt (today env2)) as [[|x]|e]; simpl; auto.
  destruct ((year x >? 1900) && (year x <? 2100)); auto.
Qed.

Lemma normalizeValue_same (value : jsval) (fieldName : string)
      (config : ComparisonConfig) (isSourceA : bool) :
  normalizeValue env1 value fieldName config isSourceA
  = normalizeValue env2 value fieldName config isSourceA.
Proof.
  unfold normalizeValue, normalizeDate.
  destruct (shouldNormalizeDate config fieldName isSourceA); [|reflexivity].
  rewrite (proj2 same), (probeFormats_same _ _ dateFormats_usable). reflexivity.
Qed.

Lemma normalizeInto_same (r : Row) (config : ComparisonConfig) (isSourceA : bool)
      (hs : list string) :
  forall normalized,
    normalizeInto env1 r config isSourceA hs normalized
    = normalizeInto env2 r config isSourceA hs normalized.
Proof.
  induction hs as [|header rest IH]; intros normalized; simpl; [reflexivity|].
  rewrite normalizeValue_same.
  destruct (normalizeValue env2 _ header config isSourceA); simpl; auto.
Qed.

Lemma dedupe_same (file : CsvFile) (config : ComparisonConfig) (isSourceA : bool) :
  dedupe env1 file config isSourceA = dedupe env2 file config isSourceA.
Proof.
  unfold dedupe. generalize (@nil (string * NormalizedRow)).
  induction (data file) as [|r rows IH]; intros m; simpl; [reflexivity|].
  rewrite IH. f_equal. unfold dedupRow, getNormalizedRow.
  now rewrite normalizeInto_same.
Qed.

Lemma processed_same (file : CsvFile) (config : ComparisonConfig)
      (isSourceA : bool) :
  processed env1 file config isSourceA = processed env2 file config isSourceA.
Proof.
  unfold processed, processSource. now rewrite dedupe_same.
Qed.
End SameRuntime.

(** C7, the claim as it holds: two runs on the same files and configuration,
    in the same calendar year and with the same [Date] parser, return
    results that are equal in every field except [timestamp], whatever the
    time of each run and its duration. *)
Theorem runComparison_deterministic (env1 env2 : Env) (fileA fileB : CsvFile)
        (config : ComparisonConfig) :
  sameYearAndParser env1 env2 ->
  exists logs1 logs2 r1 r2,
    runComparison env1 fileA fileB config = (logs1, Ok r1)
    /\ runComparison env2 fileA fileB config = (logs2, Ok r2)
    /\ sameExceptTimestamp r1 r2.
Proof.
  intros same.
  destruct (runComparison_fields env1 fileA fileB config)
    as [logs1 [r1 [Hrun1 [HB1 [HA1 [HdA1 [HdB1 [HnA1 [HnB1 Hs1]]]]]]]]].
  destruct (runComparison_fields env2 fileA fileB config)
    as [logs2 [r2 [Hrun2 [HB2 [HA2 [HdA2 [HdB2 [HnA2 [HnB2 Hs2]]]]]]]]].
  exists logs1, logs2, r1, r2. split; [exact Hrun1|]. split; [exact Hrun2|].
  rewrite !(processed_same env1 env2 same) in *.
  unfold sameExceptTimestamp.
  rewrite Hs1, Hs2, HB1, HB2, HA1, HA2, HdA1, HdA2, HdB1, HdB2, HnA1, HnA2, HnB1, HnB2.
  repeat split.
Qed.

Lemma runComparison_deterministic_witness :
  exists logs1 logs2 r1 r2,
    runComparison (runtime 2026 false) bornIn76 emptyFile configDates = (logs1, Ok r1)
    /\ runComparison (mkEnv (mkYmd 2026 11 31) (dateOnly false)
                            "2026-12-31T23:00:00.000Z" "1.50")
                     bornIn76 emptyFile configDates = (logs2, Ok r2)
    /\ sameExceptTimestamp r1 r2.
Proof.
  apply (runComparison_deterministic
           (runtime 2026 false)
           (mkEnv (mkYmd 2026 11 31) (dateOnly false) "2026-12-31T23:00:00.000Z" "1.50")
           bornIn76 emptyFile configDates).
  split; [reflexivity|]. intros s. reflexivity.
Defined.

(** C7, the claim as stated fails: the same file and configuration, run in
    2026 and in 2027, give a different row in [rowsMissingInB], because
    the two-digit year of ["12-JAN-76"] is read within fifty years of the
    clock. *)
Lemma runComparison_depends_on_the_year :
  exists logs1 logs2 r1 r2,
    runComparison (runtime 2026 false) bornIn76 emptyFile configDates = (logs1, Ok r1)
    /\ runComparison (runtime 2027 false) bornIn76 emptyFile configDates = (logs2, Ok r2)
    /\ rowsMissingInB r1 = [[("D", "1976-01-12")]]
    /\ rowsMissingInB r2 = [[("D", "2076-01-12")]].
Proof.
  eexists _, _, _, _. repeat split; vm_compute; reflexivity.
Qed.

(** ** The signature is injective *)

Lemma append_assoc (a b c : string) : (a ++ b) ++ c = a ++ (b ++ c).
Proof. induction a as [|x a IH]; simpl; [reflexivity|now rewrite IH]. Qed.

Lemma append_inv_head (a x y : string) : a ++ x = a ++ y -> x = y.
Proof. induction a as [|c a IH]; simpl; [auto|]. intros [= H]. auto. Qed.

Lemma append_eq_prefix (a b x y : string) :
  a ++ x = b ++ y -> isPrefix a b = true \/ isPrefix b a = true.
Proof.
  revert b. induction a as [|c a IH]; intros b H; [now left|].
  destruct b as [|d b]; [now right|]. simpl in H. injection H as -> H.
  simpl. rewrite Ascii.eqb_refl. simpl. now apply IH.
Qed.

Lemma allAscii_In (c : ascii) : In c allAscii.
Proof.
  unfold allAscii. apply in_map_iff. exists (nat_of_ascii c). split.
  - apply ascii_nat_embedding.
  - apply in_seq. pose proof (nat_ascii_bounded c). lia.
Qed.

Lemma quoteChar_prefix_free :
  forallb (fun c1 =>
    forallb (fun c2 => implb (isPrefix (quoteChar c1) (quoteChar c2)) (Ascii.eqb c1 c2))
            allAscii) allAscii = true.
Proof. vm_compute. reflexivity. Qed.

Lemma quoteChar_head :
  forallb (fun c => match quoteChar c with
                    | String h _ => negb (Ascii.eqb h doubleQuote)
                    | EmptyString => false
                    end) allAscii = true.
Proof. vm_compute. reflexivity. Qed.

Lemma quoteChar_inj (c1 c2 : ascii) (x y : string) :
  quoteChar c1 ++ x = quoteChar c2 ++ y -> c1 = c2 /\ x = y.
Proof.
  intros H.
  assert (E : c1 = c2).
  { pose proof quoteChar_prefix_free as P. rewrite forallb_forall in P.
    destruct (append_eq_prefix _ _ _ _ H) as [Q|Q].
    - specialize (P c1 (allAscii_In c1)). rewrite forallb_forall in P.
      specialize (P c2 (allAscii_In c2)). rewrite Q in P. now apply Ascii.eqb_eq.
    - specialize (P c2 (allAscii_In c2)). rewrite forallb_forall in P.
      specialize (P c1 (allAscii_In c1)). rewrite Q in P. symmetry.
      now apply Ascii.eqb_eq. }
  subst c2. split; [reflexivity|]. now apply append_inv_head in H.
Qed.

Lemma quoteChar_not_quote (c : ascii) (x y : string) :
  quoteChar c ++ x <> String doubleQuote y.
Proof.
  pose proof quoteChar_head as P. rewrite forallb_forall in P.
  specialize (P c (allAscii_In c)).
  destruct (quoteChar c) as [|h t]; [discriminate|]. simpl. intros [= -> _].
  now rewrite Ascii.eqb_refl in P.
Qed.

(** A quoted string ends at its closing quote. *)
Lemma quoteChars_inj (s1 : string) :
  forall s2 x y,
    quoteChars s1 ++ String doubleQuote x = quoteChars s2 ++ String doubleQuote y ->
    s1 = s2 /\ x = y.
Proof.
  induction s1 as [|c1 s1 IH]; intros [|c2 s2] x y H; simpl in H.
  - now injection H.
  - symmetry in H. rewrite append_assoc in H. now apply quoteChar_not_quote in H.
  - rewrite append_assoc in H. now apply quoteChar_not_quote in H.
  - rewrite !append_assoc in H. apply quoteChar_inj in H as [-> H].
    apply IH in H as [-> ->]. auto.
Qed.

Lemma quoteJSONString_inj (s1 s2 x y : string) :
  quoteJSONString s1 ++ x = quoteJSONString s2 ++ y -> s1 = s2 /\ x = y.
Proof.
  unfold quoteJSONString. simpl. rewrite !append_assoc. simpl.
  intros [= H]. now apply quoteChars_inj in H.
Qed.

Lemma entry_inj (e1 e2 : string * string) (x y : string) :
  entry e1 ++ x = entry e2 ++ y -> e1 = e2 /\ x = y.
Proof.
  destruct e1 as [k1 v1], e2 as [k2 v2]. unfold entry.
  rewrite !append_assoc. intros H.
  apply quoteJSONString_inj in H as [-> H]. apply (append_inv_head ":") in H.
  apply quoteJSONString_inj in H as [-> ->]. auto.
Qed.

Lemma entry_head (e : string * string) (x : string) :
  exists t, entry e ++ x = String doubleQuote t.
Proof. destruct e as [k v]. unfold entry, quoteJSONString. simpl. eauto. Qed.

Lemma join_cons (sep p : string) (rest : list string) (t : string) :
  join sep (p :: rest) ++ t
  = p ++ match rest with [] => t | _ => sep ++ join sep rest ++ t end.
Proof.
  destruct rest as [|q rest]; [reflexivity|].
  change (join sep (p :: q :: rest)) with (p ++ sep ++ join sep (q :: rest)).
  now rewrite !append_assoc.
Qed.

Lemma join_entries_inj (l1 : list (string * string)) :
  forall l2,
    join "," (map entry l1) ++ "}" = join "," (map entry l2) ++ "}" -> l1 = l2.
Proof.
  induction l1 as [|e1 r1 IH]; intros [|e2 r2] H.
  - reflexivity.
  - simpl map in H. rewrite join_cons in H.
    destruct (entry_head e2 (match map entry r2 with
                             | [] => "}" | _ => "," ++ join "," (map entry r2) ++ "}"
                             end)) as [t E].
    rewrite E in H. discriminate.
  - simpl map in H. rewrite join_cons in H.
    destruct (entry_head e1 (match map entry r1 with
                             | [] => "}" | _ => "," ++ join "," (map entry r1) ++ "}"
                             end)) as [t E].
    rewrite E in H. discriminate.
  - simpl map in H. rewrite !join_cons in H. apply entry_inj in H as [-> H].
    f_equal. apply IH.
    destruct r1 as [|a r1], r2 as [|b r2]; simpl map in H |- *;
      try reflexivity; try discriminate.
    now injection H.
Qed.

(** The text of a row, entry by entry. *)
Lemma JSON_stringify_entries (a : NormalizedRow) :
  JSON_stringify a = "{" ++ join "," (map entry a) ++ "}".
Proof. reflexivity. Qed.

Lemma signature_inj (a b : NormalizedRow) :
  JSON_stringify a = JSON_stringify b -> a = b.
Proof.
  rewrite !JSON_stringify_entries. intros H. simpl in H. injection H as H.
  now apply join_entries_inj.
Qed.

(** X1: two normalised rows have the same signature exactly when they are
    the same row, field by field and in the same order: no quote, comma,
    colon or brace inside a name or a value makes two different rows
    collide, so de-duplication by signature is de-duplication by row. *)
Theorem JSON_stringify_injective (a b : NormalizedRow) :
  JSON_stringify a = JSON_stringify b <-> a = b.
Proof.
  split.
  - rewrite !JSON_stringify_entries. intros H. simpl in H. injection H as H.
    revert H. apply join_entries_inj.
  - intros E. now rewrite E.
Qed.

(** ** The unique rows *)

Lemma Map_values_set_new {V : Type} (m : JsMap V) (key : string) (value : V) :
  Map_has m key = false ->
  Map_values (Map_set m key value) = (Map_values m ++ [value])%list.
Proof.
  unfold Map_has, Map_values. induction m as [|[k v] m IH]; simpl; [reflexivity|].
  destruct (String.eqb k key); [discriminate|]. intros H. simpl. now rewrite IH.
Qed.

Lemma keepFirst_fold (env : Env) (file : CsvFile) (config : ComparisonConfig)
      (isSourceA : bool) (rows : list Row) :
  forall (m : JsMap NormalizedRow) (seen : list NormalizedRow),
    (forall x, In x seen <-> Map_has m (JSON_stringify x) = true) ->
    Map_values (fold_left (dedupRow env file config isSourceA) rows m)
    = (Map_values m
       ++ keepFirst seen
            (flat_map (fun r =>
               match getNormalizedRow env r (headers file) config isSourceA with
               | Ok normalizedRow => [normalizedRow]
               | Throw _ => []
               end) rows))%list.
Proof.
  induction rows as [|r rows IH]; intros m seen Hseen; simpl.
  - now rewrite app_nil_r.
  - unfold dedupRow at 2.
    destruct (getNormalizedRow_returns env r (headers file) config isSourceA)
      as [nr ->]. simpl.
    destruct (in_dec NormalizedRow_eq_dec nr seen) as [Hin|Hnot].
    + apply Hseen in Hin. rewrite Hin. simpl. now apply IH.
    + assert (Hhas : Map_has m (JSON_stringify nr) = false).
      { destruct (Map_has m (JSON_stringify nr)) eqn:E; [|reflexivity].
        apply Hseen in E. contradiction. }
      rewrite Hhas. simpl.
      rewrite (IH _ (nr :: seen)).
      * rewrite Map_values_set_new by exact Hhas. now rewrite <- app_assoc.
      * intros x.
        rewrite Map_has_set, orb_true_iff, String.eqb_eq. rewrite <- Hseen. simpl.
        split; (intros [H|H]; [left|right; exact H]);
          first [now rewrite H | now apply signature_inj
                | symmetry; now apply signature_inj].
Qed.

Lemma keepFirst_spec (rows : list NormalizedRow) :
  forall seen,
    NoDup (keepFirst seen rows)
    /\ forall x, In x (keepFirst seen rows) <-> In x rows /\ ~ In x seen.
Proof.
  induction rows as [|r rows IH]; intros seen; simpl.
  - split; [constructor|]. tauto.
  - destruct (in_dec NormalizedRow_eq_dec r seen) as [Hin|Hnot].
    + destruct (IH seen) as [Hnd Hx]. split; [exact Hnd|].
      intros x. rewrite Hx. split; [tauto|].
      intros [[<-|H] Hn]; [contradiction|tauto].
    + destruct (IH (r :: seen)) as [Hnd Hx]. split.
      * constructor; [|exact Hnd]. rewrite Hx. simpl. tauto.
      * intros x. simpl. rewrite Hx. simpl.
        destruct (NormalizedRow_eq_dec r x) as [->|Hne]; tauto.
Qed.

Lemma validUniqueRows_eq (env : Env) (file : CsvFile)
      (config : ComparisonConfig) (isSourceA : bool) :
  validUniqueRows (processed env file config isSourceA)
  = keepFirst [] (normalizedRows env file config isSourceA).
Proof.
  destruct (processed_fields env file config isSourceA) as [-> _].
  unfold dedupe, normalizedRows.
  rewrite (keepFirst_fold env file config isSourceA (data file) [] []);
    [reflexivity|].
  intros x. simpl. split; [contradiction|discriminate].
Qed.

Lemma validUniqueRows_NoDup (env : Env) (file : CsvFile)
      (config : ComparisonConfig) (isSourceA : bool) :
  NoDup (validUniqueRows (processed env file config isSourceA)).
Proof. rewrite validUniqueRows_eq. apply keepFirst_spec. Qed.

(** X2: the unique rows of a source are its normalised rows without those
    equal to an earlier one, in the order of the file; they are pairwise
    different, and a row is among them exactly when it is the normalised
    form of a row of the file. *)
Theorem validUniqueRows_keepFirst (env : Env) (file : CsvFile)
        (config : ComparisonConfig) (isSourceA : bool) :
  let unique := validUniqueRows (processed env file config isSourceA) in
  unique = keepFirst [] (normalizedRows env file config isSourceA)
  /\ NoDup unique
  /\ forall x, In x unique <-> In x (normalizedRows env file config isSourceA).
Proof.
  cbv zeta. split; [apply validUniqueRows_eq|]. split.
  - apply validUniqueRows_NoDup.
  - intros x. rewrite validUniqueRows_eq.
    destruct (keepFirst_spec (normalizedRows env file config isSourceA) [])
      as [_ Hx].
    rewrite Hx. simpl. tauto.
Qed.

(** ** The rows reported missing, with multiplicity *)

Lemma buildIndex_get (config : ComparisonConfig) (isSourceA : bool)
      (rows : list NormalizedRow) (k : string) :
  match Map_get (fst (buildIndex config isSourceA rows)) k with
  | Some under => under
  | None => []
  end = filter (fun r => String.eqb (buildKey config isSourceA r) k) rows.
Proof.
  destruct (buildIndex_indexed config isSourceA rows) as [_ [_ H]].
  rewrite H. now destruct (filter _ rows).
Qed.

Lemma filter_or_Permutation {A : Type} (f g : A -> bool) (l : list A) :
  (forall x, f x = true -> g x = false) ->
  Permutation (filter (fun x => f x || g x) l) (filter f l ++ filter g l).
Proof.
  intros D. induction l as [|x l IH]; simpl; [constructor|].
  destruct (f x) eqn:F; simpl.
  - rewrite (D x F). now constructor.
  - destruct (g x); [|exact IH]. now apply Permutation_cons_app.
Qed.

(** The rows under a duplicate-free list of keys are the rows keyed by
    one of them, each once. *)
Lemma rowsOfKeys_Permutation (config : ComparisonConfig) (isSourceA : bool)
      (rows : list NormalizedRow) (keys : list string) :
  NoDup keys ->
  Permutation (rowsOfKeys (fst (buildIndex config isSourceA rows)) keys)
              (filter (fun r => Set_has keys (buildKey config isSourceA r)) rows).
Proof.
  unfold rowsOfKeys. induction 1 as [|k keys Hk Hnd IH]; cbn [flat_map].
  - induction rows; simpl; auto.
  - rewrite buildIndex_get.
    assert (E : filter (fun r => Set_has (k :: keys) (buildKey config isSourceA r)) rows
                = filter (fun r => String.eqb (buildKey config isSourceA r) k
                                   || Set_has keys (buildKey config isSourceA r)) rows).
    { apply filter_ext. intros r. reflexivity. }
    rewrite E. symmetry.
    etransitivity; [apply filter_or_Permutation|].
    + intros r Hr. apply String.eqb_eq in Hr. rewrite Hr.
      destruct (Set_has keys k) eqn:S; [|reflexivity].
      apply Set_has_In in S. contradiction.
    + apply Permutation_app_head. symmetry. exact IH.
Qed.

Lemma missing_rows_Permutation (env : Env) (mine theirs : CsvFile)
      (config : ComparisonConfig) (side : bool) :
  let p := processed env mine config side in
  let q := processed env theirs config (negb side) in
  Permutation
    (rowsOfKeys (keyToRowsMap p) (missingKeys (allKeys p) (allKeys q)))
    (filter (fun r => negb (Set_has (allKeys q) (buildKey config side r)))
            (validUniqueRows p)).
Proof.
  cbv zeta.
  destruct (processed_fields env mine config side) as [Hu [_ [Hm Hk]]].
  rewrite Hm, Hu.
  etransitivity.
  - apply rowsOfKeys_Permutation. unfold missingKeys. apply NoDup_filter.
    apply allKeys_NoDup.
  - rewrite (filter_ext_in
               (fun r => Set_has (missingKeys (allKeys (processed env mine config side))
                                              (allKeys (processed env theirs config
                                                                  (negb side))))
                                 (buildKey config side r))
               (fun r => negb (Set_has (allKeys (processed env theirs config (negb side)))
                                       (buildKey config side r)))); [reflexivity|].
    intros r Hr.
    assert (Hkey : In (buildKey config side r)
                      (allKeys (processed env mine config side))).
    { rewrite Hk. apply buildIndex_keys. eauto. }
    destruct (Set_has (allKeys (processed env theirs config (negb side)))
                      (buildKey config side r)) eqn:S; simpl.
    + destruct (Set_has (missingKeys _ _) _) eqn:M; [|reflexivity].
      apply Set_has_In, missingKeys_In in M as [_ M].
      apply Set_has_In in S. contradiction.
    + apply Set_has_In, missingKeys_In. split; [exact Hkey|].
      intros H. apply Set_has_In in H. congruence.
Qed.

(** X3: the rows reported missing in B are the unique rows of A whose key B
    does not have, each reported once (and symmetrically): the two lists
    are permutations of one another, the report holds no row twice, and
    the unique rows of A are those reported plus those whose key B has. *)
Theorem missing_rows_exactly_once (env : Env) (fileA fileB : CsvFile)
        (config : ComparisonConfig) :
  exists logs r,
    runComparison env fileA fileB config = (logs, Ok r)
    /\ (let procA := processed env fileA config true in
        let procB := processed env fileB config false in
        let absentB x := negb (Set_has (allKeys procB) (buildKey config true x)) in
        let absentA x := negb (Set_has (allKeys procA) (buildKey config false x)) in
        Permutation (rowsMissingInB r) (filter absentB (validUniqueRows procA))
        /\ Permutation (rowsMissingInA r) (filter absentA (validUniqueRows procB))
        /\ NoDup (rowsMissingInB r)
        /\ NoDup (rowsMissingInA r)
        /\ missingInB (stats r)
           + lengthOf (filter (fun x => negb (absentB x)) (validUniqueRows procA))
           = validUniqueA (stats r)
        /\ missingInA (stats r)
           + lengthOf (filter (fun x => negb (absentA x)) (validUniqueRows procB))
           = validUniqueB (stats r)).
Proof.
  destruct (runComparison_fields env fileA fileB config)
    as [logs [r [Hrun [HB [HA [_ [_ [_ [_ Hstats]]]]]]]]].
  exists logs, r. split; [exact Hrun|]. cbv zeta.
  pose proof (missing_rows_Permutation env fileA fileB config true) as PB.
  pose proof (missing_rows_Permutation env fileB fileA config false) as PA.
  cbv zeta in PB, PA. simpl negb in PB, PA. rewrite <- HB in PB. rewrite <- HA in PA.
  pose proof (validUniqueRows_NoDup env fileA config true) as NA.
  pose proof (validUniqueRows_NoDup env fileB config false) as NB.
  rewrite Hstats. cbn [missingInB missingInA validUniqueA validUniqueB].
  split; [exact PB|]. split; [exact PA|].
  split; [apply (Permutation_NoDup (Permutation_sym PB)); now apply NoDup_filter|].
  split; [apply (Permutation_NoDup (Permutation_sym PA)); now apply NoDup_filter|].
  unfold lengthOf. rewrite (Permutation_length PB), (Permutation_length PA).
  split.
  - pose proof (filter_length
                  (fun x => negb (Set_has (allKeys (processed env fileB config false))
                                          (buildKey config true x)))
                  (validUniqueRows (processed env fileA config true))) as L.
    lia.
  - pose proof (filter_length
                  (fun x => negb (Set_has (allKeys (processed env fileA config true))
                                          (buildKey config false x)))
                  (validUniqueRows (processed env fileB config false))) as L.
    lia.
Qed.

(** ** The two sides are treated alike *)

Section SameView.
Variables (env : Env) (config1 config2 : ComparisonConfig) (side1 side2 : bool).
Hypothesis same : sameView config1 side1 config2 side2.

Lemma normalizeValue_sameView (value : jsval) (fieldName : string) :
  normalizeValue env value fieldName config1 side1
  = normalizeValue env value fieldName config2 side2.
Proof.
  destruct same as [Ht [Hz [Hd _]]].
  unfold normalizeValue, cleanValue. now rewrite Ht, Hz, Hd.
Qed.

Lemma normalizeInto_sameView (r : Row) (hs : list string) :
  forall normalized,
    normalizeInto env r config1 side1 hs normalized
    = normalizeInto env r config2 side2 hs normalized.
Proof.
  induction hs as [|header rest IH]; intros normalized; simpl; [reflexivity|].
  rewrite normalizeValue_sameView.
  destruct (normalizeValue env _ header config2 side2); simpl; auto.
Qed.

Lemma dedupe_sameView (file : CsvFile) :
  dedupe env file config1 side1 = dedupe env file config2 side2.
Proof.
  unfold dedupe. generalize (@nil (string * NormalizedRow)).
  induction (data file) as [|r rows IH]; intros m; simpl; [reflexivity|].
  rewrite IH. f_equal. unfold dedupRow, getNormalizedRow.
  now rewrite normalizeInto_sameView.
Qed.

Lemma buildKey_sameView (r : NormalizedRow) :
  buildKey config1 side1 r = buildKey config2 side2 r.
Proof.
  destruct same as [_ [_ [_ Hk]]]. unfold buildKey, keyParts. f_equal. f_equal.
  transitivity (map (getProperty r)
                    (map (fun k => if side1 then fieldA k else fieldB k)
                         (keyMappings config1))).
  - rewrite map_map. reflexivity.
  - rewrite Hk, map_map. reflexivity.
Qed.

Lemma buildIndex_sameView (rows : list NormalizedRow) :
  buildIndex config1 side1 rows = buildIndex config2 side2 rows.
Proof.
  unfold buildIndex. generalize (@nil (string * list NormalizedRow), @nil string).
  induction rows as [|r rows IH]; intros acc; simpl; [reflexivity|].
  rewrite IH. f_equal. unfold indexRow. now rewrite buildKey_sameView.
Qed.

Lemma processed_sameView (file : CsvFile) :
  processed env file config1 side1 = processed env file config2 side2.
Proof.
  unfold processed, processSource.
  rewrite dedupe_sameView, buildIndex_sameView.
  now destruct (buildIndex config2 side2 _).
Qed.
End SameView.

Lemma swapConfig_sameView (config : ComparisonConfig) (side : bool) :
  sameView (swapConfig config) (negb side) config side.
Proof.
  unfold sameView, removesLeadingZeros, shouldNormalizeDate.
  destruct side; simpl; repeat split; rewrite map_map; reflexivity.
Qed.

Lemma missingKeys_self (s : JsSet) : missingKeys s s = [].
Proof.
  unfold missingKeys.
  rewrite (filter_ext_in (fun key => negb (Set_has s key)) (fun _ => false)).
  - induction s; simpl; auto.
  - intros k Hk. apply Set_has_In in Hk. now rewrite Hk.
Qed.

(** X4: exchanging the two files, together with the rules of A and B and
    the two fields of every key mapping, exchanges the two lists of
    missing rows and the statistics of the two sides, and keeps the
    matched count. *)
Theorem runComparison_swap (env : Env) (fileA fileB : CsvFile)
        (config : ComparisonConfig) :
  exists logs logs' r r',
    runComparison env fileA fileB config = (logs, Ok r)
    /\ runComparison env fileB fileA (swapConfig config) = (logs', Ok r')
    /\ rowsMissingInB r' = rowsMissingInA r
    /\ rowsMissingInA r' = rowsMissingInB r
    /\ stats r' = {| totalA := totalB (stats r); totalB := totalA (stats r);
                     validUniqueA := validUniqueB (stats r);
                     validUniqueB := validUniqueA (stats r);
                     duplicatesA := duplicatesB (stats r);
                     duplicatesB := duplicatesA (stats r);
                     missingInB := missingInA (stats r);
                     missingInA := missingInB (stats r);
                     matched := matched (stats r) |}.
Proof.
  destruct (runComparison_fields env fileA fileB config)
    as [logs [r [Hrun [HB [HA [_ [_ [_ [_ Hs]]]]]]]]].
  destruct (runComparison_fields env fileB fileA (swapConfig config))
    as [logs' [r' [Hrun' [HB' [HA' [_ [_ [_ [_ Hs']]]]]]]]].
  exists logs, logs', r, r'. split; [exact Hrun|]. split; [exact Hrun'|].
  rewrite (processed_sameView env _ _ _ _ (swapConfig_sameView config false)) in *.
  rewrite (processed_sameView env _ _ _ _ (swapConfig_sameView config true)) in *.
  simpl negb in *.
  assert (EB : rowsMissingInB r' = rowsMissingInA r) by congruence.
  assert (EA : rowsMissingInA r' = rowsMissingInB r) by congruence.
  split; [exact EB|]. split; [exact EA|].
  rewrite Hs', Hs, EB, EA. cbn. f_equal.
  pose proof (missingKeys_length (allKeys (processed env fileA config true))
                                 (allKeys (processed env fileB config false))) as LA.
  pose proof (missingKeys_length (allKeys (processed env fileB config false))
                                 (allKeys (processed env fileA config true))) as LB.
  pose proof (common_length _ _ (allKeys_NoDup env fileA config true)
                            (allKeys_NoDup env fileB config false)) as LC.
  lia.
Qed.

(** X5: a file compared with itself under a configuration that treats the
    two sides alike has no missing row, and the matched count is the
    number of its keys. *)
Theorem runComparison_self (env : Env) (file : CsvFile) (config : ComparisonConfig) :
  sameView config true config false ->
  exists logs r,
    runComparison env file file config = (logs, Ok r)
    /\ rowsMissingInB r = []
    /\ rowsMissingInA r = []
    /\ missingInB (stats r) = 0
    /\ missingInA (stats r) = 0
    /\ matched (stats r) = lengthOf (allKeys (processed env file config true)).
Proof.
  intros same.
  destruct (runComparison_fields env file file config)
    as [logs [r [Hrun [HB [HA [_ [_ [_ [_ Hs]]]]]]]]].
  exists logs, r. split; [exact Hrun|].
  rewrite <- (processed_sameView env _ _ _ _ same) in *.
  rewrite missingKeys_self in *. simpl in HB, HA.
  rewrite Hs, HB, HA. cbn. repeat split. lia.
Qed.

Lemma runComparison_self_witness :
  exists logs r,
    runComparison (runtime 2026 false) twiceA twiceA configById = (logs, Ok r)
    /\ rowsMissingInB r = []
    /\ rowsMissingInA r = []
    /\ missingInB (stats r) = 0
    /\ missingInA (stats r) = 0
    /\ matched (stats r)
       = lengthOf (allKeys (processed (runtime 2026 false) twiceA configById true)).
Proof.
  apply (runComparison_self (runtime 2026 false) twiceA configById).
  repeat split.
Defined.

(** ** Keys without the separator *)

Lemma append_nil_r (s : string) : s ++ "" = s.
Proof. induction s as [|c s IH]; simpl; [reflexivity|now rewrite IH]. Qed.

Lemma barFree_split (a b ta tb : string) :
  existsChar isBar a = false -> existsChar isBar b = false ->
  (ta = "" \/ exists t, ta = String "|" t) ->
  (tb = "" \/ exists t, tb = String "|" t) ->
  a ++ ta = b ++ tb -> a = b /\ ta = tb.
Proof.
  revert b. induction a as [|c a IH]; intros b Ha Hb Hta Htb H.
  - destruct b as [|d b]; [auto|]. simpl in *. apply orb_false_iff in Hb as [Hd _].
    destruct Hta as [->|[t ->]]; [discriminate|]. injection H as <- _.
    discriminate.
  - simpl in Ha. apply orb_false_iff in Ha as [Hc Ha].
    destruct b as [|d b]; simpl in *.
    + destruct Htb as [->|[t ->]]; [discriminate|]. injection H as -> _.
      discriminate.
    + apply orb_false_iff in Hb as [_ Hb]. injection H as -> H.
      destruct (IH b Ha Hb Hta Htb H) as [-> ->]. auto.
Qed.

Lemma join_bar_inj (l1 : list string) :
  forall l2,
    List.length l1 = List.length l2 ->
    Forall (fun p => existsChar isBar p = false) l1 ->
    Forall (fun p => existsChar isBar p = false) l2 ->
    join "|" l1 = join "|" l2 -> l1 = l2.
Proof.
  induction l1 as [|p1 r1 IH]; intros [|p2 r2] Hlen F1 F2 H; try discriminate.
  - reflexivity.
  - inversion F1 as [|? ? B1 F1']; inversion F2 as [|? ? B2 F2']; subst.
    injection Hlen as Hlen.
    assert (H' : join "|" (p1 :: r1) ++ "" = join "|" (p2 :: r2) ++ "")
      by now rewrite H.
    rewrite !join_cons in H'.
    apply barFree_split in H' as [-> Ht]; auto.
    + f_equal. apply IH; auto.
      destruct r1, r2; try discriminate; [reflexivity|].
      apply (append_inv_head "|") in Ht.
      now rewrite !append_nil_r in Ht.
    + destruct r1; [now left|right; simpl; eauto].
    + destruct r2; [now left|right; simpl; eauto].
Qed.

(** X6: when no key value of two rows holds the separator, equal composite
    keys mean equal key values, field by field. *)
Theorem buildKey_injective_without_bar (config : ComparisonConfig)
        (side1 side2 : bool) (r1 r2 : NormalizedRow) :
  Forall (fun p => existsChar isBar (partText p) = false) (keyParts config side1 r1) ->
  Forall (fun p => existsChar isBar (partText p) = false) (keyParts config side2 r2) ->
  buildKey config side1 r1 = buildKey config side2 r2 ->
  map partText (keyParts config side1 r1) = map partText (keyParts config side2 r2).
Proof.
  intros F1 F2 H. apply join_bar_inj.
  - unfold keyParts. now rewrite !length_map.
  - now apply Forall_map.
  - now apply Forall_map.
  - exact H.
Qed.

Lemma buildKey_injective_without_bar_witness :
  map partText (keyParts configTwoKeys true [("P", "1"); ("Q", "2")])
  = map partText (keyParts configTwoKeys false [("Q", "2"); ("P", "1")]).
Proof.
  apply (buildKey_injective_without_bar configTwoKeys true false
           [("P", "1"); ("Q", "2")] [("Q", "2"); ("P", "1")]).
  - repeat constructor.
  - repeat constructor.
  - reflexivity.
Defined.

(** ** Blank cells and cells of zeros *)

Lemma trimStart_blank (s : string) :
  existsChar (fun c => negb (isWhitespace c)) s = false -> trimStart s = "".
Proof.
  induction s as [|c s IH]; simpl; [reflexivity|].
  intros [Hc Hs]%orb_false_iff. apply negb_false_iff in Hc. rewrite Hc. auto.
Qed.

Lemma normalizeDate_empty (env : Env) : normalizeDate env "" = Ok "".
Proof.
  unfold normalizeDate.
  replace (matchAtoms reDayMonYear "") with false by reflexivity.
  replace (existsChar isDash "") with false by reflexivity.
  rewrite andb_false_r. reflexivity.
Qed.

(** X7: a cell that is missing, [null], empty or made of white space
    normalises to the empty string, under every configuration and also
    where dates are normalised. *)
Theorem blank_normalises_to_empty (env : Env) (value : jsval) (fieldName : string)
        (config : ComparisonConfig) (isSourceA : bool) :
  isBlank value = true ->
  normalizeValue env value fieldName config isSourceA = Ok "".
Proof.
  intros B.
  assert (C : cleanValue value fieldName config isSourceA = "").
  { unfold cleanValue.
    assert (T : trim (toString (or_else value (JStr ""))) = "").
    { destruct value as [| |b|n|s]; try discriminate; try reflexivity.
      rewrite toString_or_else_string. unfold trim.
      simpl in B. apply negb_true_iff in B. now rewrite trimStart_blank. }
    rewrite T.
    destruct (trimWhitespace (rules config));
      destruct (removesLeadingZeros config fieldName isSourceA); reflexivity. }
  unfold normalizeValue. rewrite C.
  destruct (shouldNormalizeDate config fieldName isSourceA); [|reflexivity].
  apply normalizeDate_empty.
Qed.

Lemma blank_normalises_to_empty_witness :
  normalizeValue (runtime 2026 false) (JStr "   ") "D" configDates true = Ok "".
Proof.
  apply (blank_normalises_to_empty (runtime 2026 false) (JStr "   ") "D"
                                   configDates true).
  reflexivity.
Defined.

Lemma removeLeadingZeros_head (s : string) :
  match removeLeadingZeros s with
  | String c _ => c <> "0"%char
  | EmptyString => True
  end.
Proof.
  induction s as [|c s IH]; simpl; [exact I|].
  destruct (Ascii.eqb c "0") eqn:E; [exact IH|]. now apply Ascii.eqb_neq.
Qed.

Lemma removeLeadingZeros_zeros (n : nat) :
  removeLeadingZeros (DateFns.repeatChar "0" n) = "".
Proof. induction n as [|n IH]; simpl; auto. Qed.

Lemma zeros_noWhitespace (n : nat) : noWhitespace (DateFns.repeatChar "0" n).
Proof.
  induction n as [|n IH]; [reflexivity|]. apply noWhitespace_cons. now split.
Qed.

(** X8: where leading zeros are removed from a field and its dates are not
    normalised, no normalised value starts with a zero, and a value made
    of zeros only normalises to the empty string, as a blank cell
    does. *)
Theorem leading_zeros_removed (env : Env) (fieldName : string)
        (config : ComparisonConfig) (isSourceA : bool) :
  removesLeadingZeros config fieldName isSourceA = true ->
  shouldNormalizeDate config fieldName isSourceA = false ->
  (forall value, exists s,
      normalizeValue env value fieldName config isSourceA = Ok s
      /\ match s with String c _ => c <> "0"%char | EmptyString => True end)
  /\ (forall n,
        normalizeValue env (JStr (DateFns.repeatChar "0" n)) fieldName config isSourceA
        = Ok "").
Proof.
  intros Z D. unfold normalizeValue, cleanValue. rewrite Z, D. split.
  - intros value. eexists. split; [reflexivity|]. apply removeLeadingZeros_head.
  - intros n. rewrite toString_or_else_string.
    rewrite (noWhitespace_trim _ (zeros_noWhitespace n)).
    rewrite (noWhitespace_removeWhitespace _ (zeros_noWhitespace n)).
    destruct (trimWhitespace (rules config)); now rewrite removeLeadingZeros_zeros.
Qed.

Lemma leading_zeros_removed_witness :
  normalizeValue (runtime 2026 false) (JStr (DateFns.repeatChar "0" 3)) "ID"
                 configZeros true = Ok "".
Proof.
  apply (leading_zeros_removed (runtime 2026 false) "ID" configZeros true);
    reflexivity.
Defined.

(** ** Dates written with slashes *)












(** ** [handleRun] *)

Lemma runComparison_log_levels (env : Env) (fileA fileB : CsvFile)
      (config : ComparisonConfig) :
  Forall quietLevel (fst (runComparison env fileA fileB config)).
Proof.
  unfold runComparison, processSource.
  destruct (buildIndex config true _) as [mA sA].
  destruct (buildIndex config false _) as [mB sB]. simpl.
  destruct (_ >? 0); destruct (_ >? 0); simpl;
    repeat (constructor; [unfold quietLevel; simpl; auto|]); constructor.
Qed.

(** X11: [handleRun] runs the comparison exactly when both files are loaded
    and there is a key mapping. It then drops the earlier log, stores the
    result of [runComparison] and logs its lines after the line of
    initialisation: no line is an error or a warning, the [catch] is not
    entered. Otherwise it only adds one error line. It never changes the
    files or the configuration. *)
Theorem handleRun_outcomes (env : Env) (st : AppState) :
  (readyToRun st = true ->
   exists fileA fileB logs r,
     stFileA st = Some fileA /\ stFileB st = Some fileB
     /\ runComparison env fileA fileB (stConfig st) = (logs, Ok r)
     /\ stResult (handleRun env st) = Some r
     /\ stLogs (handleRun env st)
        = mkLog info "Initializing comparison engine..." :: logs
     /\ Forall quietLevel (stLogs (handleRun env st)))
  /\ (readyToRun st = false ->
      exists msg, handleRun env st = addLog st error msg)
  /\ stFileA (handleRun env st) = stFileA st
  /\ stFileB (handleRun env st) = stFileB st
  /\ stConfig (handleRun env st) = stConfig st.
Proof.
  unfold readyToRun, handleRun.
  destruct (stFileA st) as [fileA|] eqn:EA; destruct (stFileB st) as [fileB|] eqn:EB;
    try (repeat split; [discriminate|intros _; eauto|auto..]).
  destruct (List.length (keyMappings (stConfig st)) =? 0)%nat eqn:K; simpl.
  - repeat split; [discriminate|eauto|auto..].
  - pose proof (runComparison_log_levels env fileA fileB (stConfig st)) as L.
    destruct (runComparison_fields env fileA fileB (stConfig st))
      as [logs [r [Hrun _]]].
    rewrite Hrun in *. simpl in *. repeat split; try discriminate; auto.
    intros _. exists fileA, fileB, logs, r. repeat split; auto.
    constructor; [left; reflexivity|exact L].
Qed.

(** ** [ConfigPanel] *)

Lemma includes_In (l : list string) (x : string) : includes l x = true <-> In x l.
Proof.
  unfold includes. rewrite existsb_exists. split.
  - intros [y [Hy E]]. apply String.eqb_eq in E. now subst.
  - intros H. exists x. split; [exact H|apply String.eqb_refl].
Qed.

Lemma includes_iff (l l' : list string) (x : string) :
  (In x l <-> In x l') -> includes l x = includes l' x.
Proof.
  intros H. destruct (includes l x) eqn:E, (includes l' x) eqn:E'; try reflexivity.
  - apply includes_In, H, includes_In in E. congruence.
  - apply includes_In, H, includes_In in E'. congruence.
Qed.

Lemma getList_setList (listKey other : ListKey) (l : list string)
      (r : NormalizationRules) :
  getList other (setList listKey l r)
  = if match listKey, other with
       | removeLeadingZerosFieldsAKey, removeLeadingZerosFieldsAKey
       | removeLeadingZerosFieldsBKey, removeLeadingZerosFieldsBKey
       | dateFieldsAKey, dateFieldsAKey
       | dateFieldsBKey, dateFieldsBKey => true
       | _, _ => false
       end
    then l else getList other r.
Proof. destruct listKey, other; reflexivity. Qed.

(** X12: [toggleFieldInList] flips whether the field is in the chosen list
    and nothing else: the other fields of the list, the three other lists,
    the five switches and the key mappings stay, and a list without
    repeats stays without repeats. *)
Theorem toggleFieldInList_flips (listKey : ListKey) (field : string)
        (prev : ComparisonConfig) :
  let next := toggleFieldInList listKey field prev in
  includes (getList listKey (rules next)) field
  = negb (includes (getList listKey (rules prev)) field)
  /\ (forall other, other <> field ->
        includes (getList listKey (rules next)) other
        = includes (getList listKey (rules prev)) other)
  /\ (forall otherKey, otherKey <> listKey ->
        getList otherKey (rules next) = getList otherKey (rules prev))
  /\ (NoDup (getList listKey (rules prev)) -> NoDup (getList listKey (rules next)))
  /\ keyMappings next = keyMappings prev
  /\ trimWhitespace (rules next) = trimWhitespace (rules prev)
  /\ removeLeadingZerosA (rules next) = removeLeadingZerosA (rules prev)
  /\ normalizeDatesA (rules next) = normalizeDatesA (rules prev)
  /\ removeLeadingZerosB (rules next) = removeLeadingZerosB (rules prev)
  /\ normalizeDatesB (rules next) = normalizeDatesB (rules prev).
Proof.
  cbv zeta. unfold toggleFieldInList. cbn [rules keyMappings].
  set (l := getList listKey (rules prev)).
  assert (Hsame : forall x, getList listKey (setList listKey x (rules prev)) = x)
    by (intros x; rewrite getList_setList; now destruct listKey).
  rewrite Hsame.
  assert (Hin : forall x,
             In x (if includes l field
                   then filter (fun f => negb (String.eqb f field)) l
                   else (l ++ [field])%list)
             <-> (if includes l field then In x l /\ x <> field
                  else In x l \/ x = field)).
  { intros x. destruct (includes l field).
    - rewrite filter_In, negb_true_iff, String.eqb_neq. tauto.
    - rewrite in_app_iff. simpl. intuition congruence. }
  repeat split.
  - destruct (includes l field) eqn:E; simpl.
    + destruct (includes (filter _ l) field) eqn:E'; [|reflexivity].
      apply includes_In, filter_In in E' as [_ E'].
      now rewrite String.eqb_refl in E'.
    + apply includes_In, in_app_iff. right. now left.
  - intros other Hne. apply includes_iff. rewrite Hin.
    destruct (includes l field); intuition congruence.
  - intros otherKey Hne. rewrite getList_setList.
    destruct listKey, otherKey; try reflexivity; contradiction.
  - intros Hnd. destruct (includes l field) eqn:E.
    + now apply NoDup_filter.
    + apply NoDup_app; [exact Hnd|repeat constructor; intros []|].
      intros a Ha [<-|[]]. apply includes_In in Ha. congruence.
  - destruct listKey; reflexivity.
  - destruct listKey; reflexivity.
  - destruct listKey; reflexivity.
  - destruct listKey; reflexivity.
  - destruct listKey; reflexivity.
Qed.

(** X13: [toggleRule] twice gives the configuration back. *)
Theorem toggleRule_involutive (key : RuleKey) (config : ComparisonConfig) :
  toggleRule key (toggleRule key config) = config.
Proof.
  destruct config as [mappings r]. destruct r. unfold toggleRule.
  destruct key; cbn; now rewrite negb_involutive.
Qed.

(** X14: [removeMapping] removes the mappings that carry the id, all of
    them, and keeps every other mapping and the rules; removing the same
    id again changes nothing, and two removals can be made in either
    order. *)
Theorem removeMapping_removes (mappingId otherId : string)
        (config : ComparisonConfig) :
  (forall k, In k (keyMappings (removeMapping mappingId config))
             <-> In k (keyMappings config) /\ id k <> mappingId)
  /\ rules (removeMapping mappingId config) = rules config
  /\ removeMapping mappingId (removeMapping mappingId config)
     = removeMapping mappingId config
  /\ removeMapping mappingId (removeMapping otherId config)
     = removeMapping otherId (removeMapping mappingId config).
Proof.
  unfold removeMapping. cbn [keyMappings rules]. repeat split.
  - apply filter_In in H. tauto.
  - apply filter_In in H as [_ H]. apply negb_true_iff in H.
    now apply String.eqb_neq.
  - intros [Hin Hne]. apply filter_In. split; [exact Hin|].
    now apply negb_true_iff, String.eqb_neq.
  - f_equal. induction (keyMappings config) as [|k l IH]; simpl; [reflexivity|].
    destruct (negb (String.eqb (id k) mappingId)) eqn:E; simpl; rewrite ?E, IH;
      reflexivity.
  - f_equal. induction (keyMappings config) as [|k l IH]; simpl; [reflexivity|].
    destruct (negb (String.eqb (id k) mappingId)) eqn:E;
      destruct (negb (String.eqb (id k) otherId)) eqn:E';
      simpl; rewrite ?E, ?E', IH; reflexivity.
Qed.

(** X15: a mapping added with an id that no mapping has, then removed, leaves
    the configuration as it was; while it is there the list of mappings is
    not empty and ends with it. An empty selection adds nothing. *)
Theorem addMapping_removeMapping (newId selectedA selectedB : string)
        (config : ComparisonConfig) :
  selectedA <> "" -> selectedB <> "" ->
  (forall k, In k (keyMappings config) -> id k <> newId) ->
  removeMapping newId (addMapping newId selectedA selectedB config) = config
  /\ keyMappings (addMapping newId selectedA selectedB config)
     = (keyMappings config ++ [mkKeyMapping newId selectedA selectedB])%list
  /\ addMapping newId "" selectedB config = config
  /\ addMapping newId selectedA "" config = config.
Proof.
  intros HA HB Hfresh. unfold addMapping, removeMapping.
  apply String.eqb_neq in HA, HB. rewrite HA, HB. cbn.
  rewrite ?andb_false_r. repeat split.
  destruct config as [mappings r]. cbn in *. f_equal.
  rewrite filter_app. simpl. rewrite String.eqb_refl. simpl. rewrite app_nil_r.
  induction mappings as [|k l IH]; simpl; [reflexivity|].
  assert (E : String.eqb (id k) newId = false)
    by (apply String.eqb_neq, Hfresh; now left).
  rewrite E. simpl. f_equal. apply IH. intros k' Hk'. apply Hfresh. now right.
Qed.

Lemma addMapping_removeMapping_witness :
  removeMapping "k2" (addMapping "k2" "NAME" "NAME" configById) = configById.
Proof.
  apply (addMapping_removeMapping "k2" "NAME" "NAME" configById).
  - discriminate.
  - discriminate.
  - intros k [<-|[]]. discriminate.
Defined.

(** ** [ResultsDashboard] *)

(** X16: the render of the export buttons raises exactly when one of the two
    arrays of duplicates is [undefined], and this is so for the result of
    every run of [runComparison]. *)
Theorem exportButtons_raise (env : Env) (fileA fileB : CsvFile)
        (config : ComparisonConfig) :
  (forall results,
      (exists e, exportButtons results = Throw e)
      <-> duplicatedRowsA results = None \/ duplicatedRowsB results = None)
  /\ exists logs r e,
       runComparison env fileA fileB config = (logs, Ok r)
       /\ exportButtons r = Throw e.
Proof.
  split.
  - intros results. unfold exportButtons.
    destruct (duplicatedRowsA results) as [a|], (duplicatedRowsB results) as [b|];
      simpl; split; intros H; eauto.
    + destruct H as [e H]. discriminate.
    + destruct H; discriminate.
  - destruct (duplicate_report_never env fileA fileB config)
      as [logs [r [Hrun [HA HB]]]].
    exists logs, r. unfold exportButtons. rewrite HA. simpl. eauto.
Qed.

Lemma rowsOfKeys_length (config : ComparisonConfig) (isSourceA : bool)
      (rows : list NormalizedRow) (keys : list string) :
  (forall k, In k keys -> In k (snd (buildIndex config isSourceA rows))) ->
  lengthOf keys <= lengthOf (rowsOfKeys (fst (buildIndex config isSourceA rows)) keys).
Proof.
  unfold lengthOf, rowsOfKeys. induction keys as [|k keys IH]; intros H; [simpl; lia|].
  cbn [flat_map]. rewrite length_app, buildIndex_get.
  assert (Hk : In k (snd (buildIndex config isSourceA rows))) by (apply H; now left).
  apply buildIndex_keys in Hk as [r [Hr Hkey]].
  assert (Hin : In r (filter (fun x => String.eqb (buildKey config isSourceA x) k) rows)).
  { apply filter_In. split; [exact Hr|]. now apply String.eqb_eq. }
  destruct (filter _ rows) as [|x l]; [contradiction|].
  specialize (IH (fun k' Hk' => H k' (or_intror Hk'))).
  change (List.length (k :: keys)) with (S (List.length keys)).
  change (List.length (x :: l)) with (S (List.length l)). lia.
Qed.

(** X17: the total that the dashboard divides by, matched keys plus missing
    rows of both sides, is at least the number of different keys of the
    two sources, and equals it exactly when every key that one side lacks
    has one row. *)
Theorem totalUnion_counts_rows (env : Env) (fileA fileB : CsvFile)
        (config : ComparisonConfig) :
  exists logs r,
    runComparison env fileA fileB config = (logs, Ok r)
    /\ (let keySetA := allKeys (processed env fileA config true) in
        let keySetB := allKeys (processed env fileB config false) in
        let keysOnlyInA := missingKeys keySetA keySetB in
        let keysOnlyInB := missingKeys keySetB keySetA in
        let differentKeys := lengthOf keySetA + lengthOf keysOnlyInB in
        lengthOf keysOnlyInA <= missingInB (stats r)
        /\ lengthOf keysOnlyInB <= missingInA (stats r)
        /\ differentKeys <= totalUnion (stats r)
        /\ (totalUnion (stats r) = differentKeys
            <-> missingInB (stats r) = lengthOf keysOnlyInA
                /\ missingInA (stats r) = lengthOf keysOnlyInB)).
Proof.
  destruct (runComparison_fields env fileA fileB config)
    as [logs [r [Hrun [HB [HA [_ [_ [_ [_ Hs]]]]]]]]].
  exists logs, r. split; [exact Hrun|]. cbv zeta.
  unfold totalUnion. rewrite Hs. cbn [matched missingInB missingInA].
  rewrite HB, HA.
  destruct (processed_fields env fileA config true) as [_ [_ [HmA HkA]]].
  destruct (processed_fields env fileB config false) as [_ [_ [HmB HkB]]].
  assert (LB : lengthOf (missingKeys (allKeys (processed env fileA config true))
                                     (allKeys (processed env fileB config false)))
               <= lengthOf (rowsOfKeys (keyToRowsMap (processed env fileA config true))
                              (missingKeys (allKeys (processed env fileA config true))
                                           (allKeys (processed env fileB config false))))).
  { rewrite HmA. apply rowsOfKeys_length. intros k Hk.
    apply missingKeys_In in Hk as [Hk _]. now rewrite <- HkA. }
  assert (LA : lengthOf (missingKeys (allKeys (processed env fileB config false))
                                     (allKeys (processed env fileA config true)))
               <= lengthOf (rowsOfKeys (keyToRowsMap (processed env fileB config false))
                              (missingKeys (allKeys (processed env fileB config false))
                                           (allKeys (processed env fileA config true))))).
  { rewrite HmB. apply rowsOfKeys_length. intros k Hk.
    apply missingKeys_In in Hk as [Hk _]. now rewrite <- HkB. }
  pose proof (missingKeys_length (allKeys (processed env fileA config true))
                                 (allKeys (processed env fileB config false))) as MA.
  assert (0 <= lengthOf (filter (Set_has (allKeys (processed env fileB config false)))
                                (allKeys (processed env fileA config true))))
    by (unfold lengthOf; lia).
  repeat split; lia.
Qed.

Lemma existsChar_app (p : ascii -> bool) (a b : string) :
  existsChar p (a ++ b) = existsChar p a || existsChar p b.
Proof.
  induction a as [|c a IH]; simpl; [reflexivity|]. now rewrite IH, orb_assoc.
Qed.

(** X18: [stripExtension] removes the last extension of a file name, a dot
    followed by characters other than the dot and the slash, and leaves a
    name without a dot as it is. *)
Theorem stripExtension_last (base ext : string) :
  ext <> "" -> existsChar isSlashOrDot ext = false ->
  stripExtension (base ++ "." ++ ext) = base
  /\ (existsChar (Ascii.eqb ".") base = false -> stripExtension base = base).
Proof.
  intros Hne Hext. split.
  - change (base ++ "." ++ ext) with (base ++ String "." ext).
    induction base as [|c base IH]; simpl.
    + rewrite Hext. apply String.eqb_neq in Hne. now rewrite Hne.
    + rewrite existsChar_app. simpl.
      replace (isSlashOrDot ".") with true by reflexivity.
      rewrite orb_true_r. simpl. rewrite !andb_false_r. now rewrite IH.
  - clear. induction base as [|c base IH]; cbn [existsChar stripExtension];
      [reflexivity|].
    intros [Hc Hb]%orb_false_iff. rewrite Ascii.eqb_sym, Hc. cbn [andb].
    now rewrite (IH Hb).
Qed.

Lemma stripExtension_last_witness :
  stripExtension ("export.2026" ++ "." ++ "csv") = "export.2026".
Proof.
  apply (stripExtension_last "export.2026" "csv").
  - discriminate.
  - reflexivity.
Defined.

(** ** [LogPanel] *)

Lemma split_cons (sep : ascii) (s : string) : exists piece rest, split sep s = piece :: rest.
Proof.
  induction s as [|c s [p [r IH]]]; simpl; [eauto|].
  destruct (Ascii.eqb c sep); [eauto|]. rewrite IH. eauto.
Qed.

Lemma split_app_sep (sep : ascii) (a b : string) :
  existsChar (Ascii.eqb sep) a = false ->
  split sep (a ++ String sep b) = a :: split sep b.
Proof.
  induction a as [|c a IH]; simpl.
  - now rewrite Ascii.eqb_refl.
  - intros [Hc Ha]%orb_false_iff. rewrite Ascii.eqb_sym, Hc, (IH Ha). reflexivity.
Qed.

Lemma split_head_app (sep : ascii) (a b : string) :
  existsChar (Ascii.eqb sep) a = false ->
  hd "" (split sep (a ++ b)) = a ++ hd "" (split sep b).
Proof.
  induction a as [|c a IH]; simpl; [reflexivity|].
  intros [Hc Ha]%orb_false_iff. rewrite Ascii.eqb_sym, Hc.
  specialize (IH Ha). destruct (split_cons sep (a ++ b)) as [p [r E]].
  rewrite E in *. simpl in *. now rewrite IH.
Qed.

Lemma split_none (sep : ascii) (s : string) :
  existsChar (Ascii.eqb sep) s = false -> split sep s = [s].
Proof.
  induction s as [|c s IH]; simpl; [reflexivity|].
  intros [Hc Hs]%orb_false_iff. now rewrite Ascii.eqb_sym, Hc, (IH Hs).
Qed.

(** X19: the time that the log panel shows for a stamp made of a date,
    [T], a time, a dot and a rest is the time, for a date without [T]
    and a time without [T] and without dot, as [toISOString] gives; a
    stamp without [T] makes the display raise. *)
Theorem displayTime_of_ISO (date time rest : string) :
  existsChar (Ascii.eqb "T") date = false ->
  existsChar (Ascii.eqb "T") time = false ->
  existsChar (Ascii.eqb ".") time = false ->
  displayTime (date ++ "T" ++ time ++ "." ++ rest) = Ok time
  /\ exists e, displayTime date = Throw e.
Proof.
  intros Hd Ht Hdot. unfold displayTime. split.
  - change (date ++ "T" ++ time ++ "." ++ rest)
      with (date ++ String "T" (time ++ "." ++ rest)).
    rewrite (split_app_sep _ _ _ Hd). cbn [nth_error].
    destruct (split_cons "T" (time ++ "." ++ rest)) as [p [r E]].
    pose proof (split_head_app "T" time ("." ++ rest) Ht) as H.
    rewrite E in *. cbn [nth_error hd] in *. f_equal. subst p.
    rewrite (split_head_app "." time _ Hdot).
    destruct (split_cons "T" rest) as [p' [r' E']].
    cbn. rewrite E'. cbn. apply append_nil_r.
  - rewrite (split_none _ _ Hd). simpl. eauto.
Qed.

Lemma displayTime_of_ISO_witness :
  displayTime ("2026-06-15" ++ "T" ++ "12:00:00" ++ "." ++ "000Z") = Ok "12:00:00".
Proof.
  apply (displayTime_of_ISO "2026-06-15" "12:00:00" "000Z"); reflexivity.
Defined.

Lemma includes_toggled (l : list string) (field other : string) :
  other <> field ->
  includes (if includes l field
            then filter (fun f => negb (String.eqb f field)) l
            else (l ++ [field])%list) other
  = includes l other.
Proof.
  intros Hne. apply includes_iff. destruct (includes l field).
  - rewrite filter_In, negb_true_iff, String.eqb_neq. tauto.
  - rewrite in_app_iff. simpl. intuition congruence.
Qed.

(** X20: [toggleFieldInList] changes the normalisation of no other field:
    every cell of another field normalises as before, on both sides. *)
Theorem toggleFieldInList_other_fields (env : Env) (listKey : ListKey)
        (field other : string) (prev : ComparisonConfig) (value : jsval)
        (isSourceA : bool) :
  other <> field ->
  normalizeValue env value other (toggleFieldInList listKey field prev) isSourceA
  = normalizeValue env value other prev isSourceA.
Proof.
  intros Hne. unfold normalizeValue, cleanValue.
  assert (Ht : trimWhitespace (rules (toggleFieldInList listKey field prev))
               = trimWhitespace (rules prev)) by (destruct listKey; reflexivity).
  assert (Hz : removesLeadingZeros (toggleFieldInList listKey field prev) other isSourceA
               = removesLeadingZeros prev other isSourceA).
  { unfold removesLeadingZeros, toggleFieldInList.
    destruct listKey, isSourceA; cbn -[includes]; try reflexivity;
      now rewrite includes_toggled. }
  assert (Hd : shouldNormalizeDate (toggleFieldInList listKey field prev) other isSourceA
               = shouldNormalizeDate prev other isSourceA).
  { unfold shouldNormalizeDate, toggleFieldInList.
    destruct listKey, isSourceA; cbn -[includes]; try reflexivity;
      now rewrite includes_toggled. }
  now rewrite Ht, Hz, Hd.
Qed.

Lemma toggleFieldInList_other_fields_witness :
  normalizeValue (runtime 2026 false) (JStr "007") "ID"
                 (toggleFieldInList removeLeadingZerosFieldsAKey "D" configZeros) true
  = normalizeValue (runtime 2026 false) (JStr "007") "ID" configZeros true.
Proof.
  apply (toggleFieldInList_other_fields (runtime 2026 false)
           removeLeadingZerosFieldsAKey "D" "ID" configZeros (JStr "007") true).
  discriminate.
Defined.

(** X21: a change made on the panel for one source leaves the processing of
    the other source as it was: a field toggled in a list of one side, or
    a switch of one side flipped, gives the same unique rows, duplicate
    count, index and key set for every file read on the other side. *)
Theorem panel_change_other_side (env : Env) (file : CsvFile)
        (prev : ComparisonConfig) :
  (forall listKey field,
      processed env file (toggleFieldInList listKey field prev)
                (negb (isListOfA listKey))
      = processed env file prev (negb (isListOfA listKey)))
  /\ processed env file (toggleRule removeLeadingZerosAKey prev) false
     = processed env file prev false
  /\ processed env file (toggleRule normalizeDatesAKey prev) false
     = processed env file prev false
  /\ processed env file (toggleRule removeLeadingZerosBKey prev) true
     = processed env file prev true
  /\ processed env file (toggleRule normalizeDatesBKey prev) true
     = processed env file prev true.
Proof.
  repeat split; intros; apply processed_sameView;
    unfold sameView, removesLeadingZeros, shouldNormalizeDate;
    try destruct listKey; cbn; repeat split; reflexivity.
Qed.

(** ** The statistics *)

Lemma filter_length_le {A : Type} (p q : A -> bool) (l : list A) :
  (forall x, In x l -> p x = true -> q x = true) ->
  (List.length (filter p l) <= List.length (filter q l))%nat.
Proof.
  induction l as [|x l IH]; intros H; simpl; [lia|].
  assert (IH' := IH (fun y Hy => H y (or_intror Hy))).
  destruct (p x) eqn:P.
  - rewrite (H x (or_introl eq_refl) P). simpl. lia.
  - destruct (q x); simpl; lia.
Qed.

Lemma filter_negb_length {A : Type} (p : A -> bool) (l : list A) :
  (List.length (filter p l) + List.length (filter (fun x => negb (p x)) l)
   = List.length l)%nat.
Proof.
  induction l as [|x l IH]; simpl; [reflexivity|]. destruct (p x); simpl; lia.
Qed.

Lemma keepFirst_length (rows : list NormalizedRow) :
  forall seen, (List.length (keepFirst seen rows) <= List.length rows)%nat.
Proof.
  induction rows as [|r rows IH]; intros seen; simpl; [lia|].
  destruct (in_dec NormalizedRow_eq_dec r seen); simpl.
  - specialize (IH seen). lia.
  - specialize (IH (r :: seen)). lia.
Qed.

Lemma normalizedRows_length (env : Env) (file : CsvFile) (config : ComparisonConfig)
      (isSourceA : bool) :
  (List.length (normalizedRows env file config isSourceA)
   <= List.length (data file))%nat.
Proof.
  unfold normalizedRows. induction (data file) as [|r rows IH]; simpl; [lia|].
  rewrite length_app. destruct (getNormalizedRow env r _ config isSourceA); simpl; lia.
Qed.

(** The keys that both sides have, and the missing rows of one side, fit
    in its unique rows. *)
Lemma matched_and_missing (env : Env) (mine theirs : CsvFile)
      (config : ComparisonConfig) (side : bool) :
  let p := processed env mine config side in
  let q := processed env theirs config (negb side) in
  lengthOf (filter (Set_has (allKeys q)) (allKeys p))
  + lengthOf (rowsOfKeys (keyToRowsMap p) (missingKeys (allKeys p) (allKeys q)))
  <= lengthOf (validUniqueRows p).
Proof.
  cbv zeta.
  pose proof (missing_rows_Permutation env mine theirs config side) as PM.
  cbv zeta in PM. apply Permutation_length in PM.
  destruct (processed_fields env mine config side) as [Hu [_ [Hm Hk]]].
  set (p := processed env mine config side) in *.
  set (q := processed env theirs config (negb side)) in *.
  set (common := filter (Set_has (allKeys q)) (allKeys p)).
  assert (Hc : forall k, In k common
                         -> In k (snd (buildIndex config side (validUniqueRows p)))).
  { intros k Hin. apply filter_In in Hin as [Hin _]. rewrite Hu, <- Hk. exact Hin. }
  pose proof (rowsOfKeys_length config side (validUniqueRows p) common Hc) as L1.
  assert (Nc : NoDup common) by (apply NoDup_filter, allKeys_NoDup).
  pose proof (rowsOfKeys_Permutation config side (validUniqueRows p) common Nc) as PC.
  apply Permutation_length in PC.
  pose proof (filter_length_le
                (fun r => Set_has common (buildKey config side r))
                (fun r => Set_has (allKeys q) (buildKey config side r))
                (validUniqueRows p)) as L2.
  pose proof (filter_negb_length
                (fun r => Set_has (allKeys q) (buildKey config side r))
                (validUniqueRows p)) as L3.
  assert (L2' : (List.length (filter (fun r => Set_has common (buildKey config side r))
                                     (validUniqueRows p))
                 <= List.length (filter (fun r => Set_has (allKeys q)
                                                    (buildKey config side r))
                                        (validUniqueRows p)))%nat).
  { apply L2. intros r _ H. apply Set_has_In in H.
    now apply filter_In in H as [_ H]. }
  rewrite <- Hu in Hm. rewrite <- Hm in L1, PC.
  unfold lengthOf in *. lia.
Qed.

(** X22: the statistics of every run fit together: the matched keys and the
    missing rows of a side are within its unique rows, the unique rows
    within its rows, and no count is negative. *)
Theorem stats_bounds (env : Env) (fileA fileB : CsvFile) (config : ComparisonConfig) :
  exists logs r,
    runComparison env fileA fileB config = (logs, Ok r)
    /\ 0 <= matched (stats r)
    /\ 0 <= missingInB (stats r) /\ 0 <= missingInA (stats r)
    /\ matched (stats r) + missingInB (stats r) <= validUniqueA (stats r)
    /\ matched (stats r) + missingInA (stats r) <= validUniqueB (stats r)
    /\ validUniqueA (stats r) <= totalA (stats r)
    /\ validUniqueB (stats r) <= totalB (stats r)
    /\ 0 <= duplicatesA (stats r) /\ 0 <= duplicatesB (stats r).
Proof.
  destruct (runComparison_fields env fileA fileB config)
    as [logs [r [Hrun [HB [HA [_ [_ [_ [_ Hs]]]]]]]]].
  exists logs, r. split; [exact Hrun|]. rewrite Hs.
  cbn [matched missingInB missingInA validUniqueA validUniqueB totalA totalB
       duplicatesA duplicatesB].
  rewrite HB, HA.
  pose proof (matched_and_missing env fileA fileB config true) as MA.
  pose proof (matched_and_missing env fileB fileA config false) as MB.
  cbv zeta in MA, MB. simpl negb in MA, MB.
  pose proof (missingKeys_length (allKeys (processed env fileA config true))
                                 (allKeys (processed env fileB config false))) as KA.
  pose proof (common_length _ _ (allKeys_NoDup env fileA config true)
                            (allKeys_NoDup env fileB config false)) as KC.
  destruct (processed_fields env fileA config true) as [_ [DA _]].
  destruct (processed_fields env fileB config false) as [_ [DB _]].
  pose proof (validUniqueRows_eq env fileA config true) as UA.
  pose proof (validUniqueRows_eq env fileB config false) as UB.
  pose proof (keepFirst_length (normalizedRows env fileA config true) []) as FA.
  pose proof (keepFirst_length (normalizedRows env fileB config false) []) as FB.
  pose proof (normalizedRows_length env fileA config true) as NA.
  pose proof (normalizedRows_length env fileB config false) as NB.
  rewrite <- UA in FA. rewrite <- UB in FB.
  destruct (processed_fields env fileA config true) as [VA _].
  destruct (processed_fields env fileB config false) as [VB _].
  rewrite DA, DB. rewrite <- VA, <- VB.
  unfold lengthOf in *. repeat split; lia.
Qed.

(** ** White space *)

Lemma removeWhitespace_trimStart (s : string) :
  removeWhitespace (trimStart s) = removeWhitespace s.
Proof.
  unfold removeWhitespace. induction s as [|c s IH]; [reflexivity|]. simpl.
  destruct (isWhitespace c) eqn:W; simpl; [exact IH|now rewrite W].
Qed.

Lemma removeWhitespace_trimEnd (s : string) :
  removeWhitespace (trimEnd s) = removeWhitespace s.
Proof.
  unfold removeWhitespace. induction s as [|c s IH]; [reflexivity|].
  cbn [trimEnd]. destruct (trimEnd s) as [|d t].
  - simpl in IH. cbn [filterChars]. rewrite <- IH.
    destruct (isWhitespace c) eqn:W; simpl; rewrite ?W; reflexivity.
  - cbn [filterChars] in *. now rewrite IH.
Qed.

(** X23: with [trimWhitespace] on, white space in a cell never counts: a
    text and the same text without its white space normalise alike, in
    every field, also where dates are normalised or zeros removed. *)
Theorem whitespace_is_ignored (env : Env) (s : string) (fieldName : string)
        (config : ComparisonConfig) (isSourceA : bool) :
  trimWhitespace (rules config) = true ->
  normalizeValue env (JStr s) fieldName config isSourceA
  = normalizeValue env (JStr (removeWhitespace s)) fieldName config isSourceA.
Proof.
  intros T. unfold normalizeValue, cleanValue. rewrite T, !toString_or_else_string.
  assert (E : removeWhitespace (trim (removeWhitespace s)) = removeWhitespace (trim s)).
  { rewrite (noWhitespace_trim _ (removeWhitespace_noWhitespace s)).
    rewrite (noWhitespace_removeWhitespace _ (removeWhitespace_noWhitespace s)).
    unfold trim. now rewrite removeWhitespace_trimEnd, removeWhitespace_trimStart. }
  now rewrite E.
Qed.

Lemma whitespace_is_ignored_witness :
  normalizeValue (runtime 2026 false) (JStr " 3 - DEC - 25 ") "D" configDates true
  = normalizeValue (runtime 2026 false) (JStr (removeWhitespace " 3 - DEC - 25 "))
                   "D" configDates true.
Proof.
  apply (whitespace_is_ignored (runtime 2026 false) " 3 - DEC - 25 " "D"
           configDates true).
  reflexivity.
Defined.
